(** * egg-price-tracker: the HTTP handlers of main.go over the price store

    A shallow embedding of [main.go]: the three Go structs, the four
    handlers with the SQL statements they send, and the properties of the
    listing, insertion and comparison operations.

    Prices are IEEE-754 binary64 numbers (Go's [float64]), modelled by the
    primitive floats of Rocq.  Go's [int] is the 64-bit signed integer of the
    usual targets, modelled in [Z] with its range written out where the
    code depends on it ([Atoi]). *)

From Stdlib Require Import ZArith List String Ascii Bool Lia.
From Stdlib Require Import Permutation Sorted Floats.
Import ListNotations.

Local Open Scope string_scope.
Local Open Scope list_scope.
Local Open Scope Z_scope.

(** ** The structs of main.go *)

Module EggPrice.
Record t : Type := mk {
  ID : Z;
  Date : string;
  Location : string;
  PricePerDozen : float;
  Source : string;
  CreatedAt : string
}.
End EggPrice.

Module Location.
Record t : Type := mk {
  ID : Z;
  Name : string;
  Type_ : string
}.
End Location.

Module PriceComparison.
Record t : Type := mk {
  Location : string;
  CurrentPrice : float;
  NationalPrice : float;
  Difference : float;
  Percentage : float
}.

(** The value of [var c PriceComparison]: every field zero. *)
Definition zero : t := mk "" 0%float 0%float 0%float 0%float.
End PriceComparison.

(** ** strconv.Atoi

    The Go standard library is not part of the repository; [Atoi] follows
    its documented behaviour: an optional sign, then at least one decimal
    digit and nothing else, and a value that fits a 64-bit [int]. *)

Definition digit (c : ascii) : option Z :=
  let n := Z.of_N (N_of_ascii c) in
  if (48 <=? n) && (n <=? 57) then Some (n - 48) else None.

Fixpoint digits (s : string) (acc : Z) : option Z :=
  match s with
  | EmptyString => Some acc
  | String c s' =>
      match digit c with
      | Some d => digits s' (acc * 10 + d)
      | None => None
      end
  end.

Definition minInt : Z := - 2 ^ 63.
Definition maxInt : Z := 2 ^ 63 - 1.

Definition Atoi (s : string) : option Z :=
  let '(neg, body) :=
    match s with
    | String "-" s' => (true, s')
    | String "+" s' => (false, s')
    | _ => (false, s)
    end in
  match body with
  | EmptyString => None
  | _ =>
      match digits body 0 with
      | None => None
      | Some n =>
          let v := if neg then - n else n in
          if (minInt <=? v) && (v <=? maxInt) then Some v else None
      end
  end.

(** ** Requests and responses (net/http) *)

Inductive Decoded : Type :=
| Malformed
| Payload (p : EggPrice.t).

(** A request as the handlers read it.  [Query] is the parsed query string,
    in the order the parameters were written.  [Body] is the request body
    as [json.NewDecoder(r.Body).Decode(&price)] reads it: [Malformed] when
    decoding returns an error, otherwise the [EggPrice] the decoder fills
    in (fields the body omits keep their zero value). *)
Record Request : Type := mkRequest {
  Method : string;
  Path : string;
  Query : list (string * string);
  Body : Decoded
}.

(** [r.URL.Query().Get(key)]: the first value of [key], or the empty
    string. *)
Fixpoint Get (q : list (string * string)) (key : string) : string :=
  match q with
  | [] => ""
  | (k, v) :: q' => if String.eqb k key then v else Get q' key
  end.

Inductive SqlError : Type :=
| ConnectionFailed
| NegativeLimit
| ConstraintViolated.

Inductive Message : Type :=
| Literal (s : string)
| DecodeError
| StoreError (e : SqlError).

Inductive Json : Type :=
| Prices (l : list EggPrice.t)
| Locations (l : list Location.t)
| Price (p : EggPrice.t)
| Comparisons (l : list PriceComparison.t).

Inductive Content : Type :=
| Text (m : Message)
| Encoded (j : Json).

Record Response : Type := mkResponse {
  StatusCode : Z;
  ContentType : string;
  Written : Content
}.

Definition StatusOK : Z := 200.
Definition StatusBadRequest : Z := 400.
Definition StatusMethodNotAllowed : Z := 405.
Definition StatusInternalServerError : Z := 500.

(** [http.Error(w, msg, code)]. *)
Definition http_Error (m : Message) (code : Z) : Response :=
  mkResponse code "text/plain; charset=utf-8" (Text m).

(** [w.Header().Set("Content-Type", "application/json")] followed by
    [json.NewEncoder(w).Encode(v)]: the first write sends status 200. *)
Definition json_Encode (j : Json) : Response :=
  mkResponse StatusOK "application/json" (Encoded j).

Definition client_error (w : Response) : bool :=
  (400 <=? StatusCode w) && (StatusCode w <? 500).

Definition internal_error (w : Response) : bool :=
  (500 <=? StatusCode w) && (StatusCode w <? 600).

(** ** The store

    Modelled from the spec: schema.sql, which declares the tables
    [egg_prices] and [locations], is not part of the source.  The columns
    are those of the structs the rows are scanned into (spec, section 3),
    each row holding a value in every column, so that [rows.Scan] has
    nothing to refuse.  What the schema alone decides is left as a
    parameter: the order of the [date] column, the collation that orders
    text, and the constraints a new row has to satisfy. *)

Record Ordering : Type := mkOrdering {
  le : string -> string -> bool;
  le_total : forall a b, le a b = true \/ le b a = true;
  le_trans : forall a b c, le a b = true -> le b c = true -> le a c = true;
  le_antisym : forall a b, le a b = true -> le b a = true -> a = b
}.

Record Schema : Type := mkSchema {
  date_order : Ordering;
  collation : Ordering;
  admits : list EggPrice.t -> EggPrice.t -> bool
}.

(** The rows an SQL statement returns, by statement.  [ComparisonRow] is
    the row of the comparison query: [lp.location], [lp.price_per_dozen]
    and [national_price]. *)
Record ComparisonRow : Type := mkComparisonRow {
  cr_location : string;
  cr_price_per_dozen : float;
  cr_national_price : float
}.

(** The five statements of main.go, each with its arguments, indexed by
    the type of the rows it returns. *)
Inductive Statement : Type -> Type :=
| SelectPricesWhere (location : string) (limit : Z) : Statement EggPrice.t
| SelectPrices (limit : Z) : Statement EggPrice.t
| SelectLocations : Statement Location.t
| InsertPrice (date location : string) (price_per_dozen : float)
    (source : string) : Statement Z
| SelectComparison : Statement ComparisonRow.

Inductive Sent : Type :=
| sent {T : Type} (q : Statement T).

(** What the handle [db] reaches: the two tables, the sequence behind the
    generated [id], the server's clock behind [created_at], whether the
    server can be reached, and the statements sent so far (oldest
    first). *)
Record DB : Type := mkDB {
  egg_prices : list EggPrice.t;
  locations : list Location.t;
  egg_prices_id_seq : Z;
  now : string;
  reachable : bool;
  statements : list Sent
}.

(** SQL fixes the rows of a result and, with ORDER BY, their order up to
    ties.  Rows that are equal under the ORDER BY come in an order the
    server chooses, and the first row of a DISTINCT ON group is then any
    of the tied ones (PostgreSQL documents both as unpredictable).  A
    [Plan] is that choice for one execution: the order in which it visits
    the rows of a table.  ORDER BY is a stable sort of the visited rows,
    so rows that are already in order come back as visited
    ([order_by_sorted_id]). *)
Record Plan : Type := mkPlan {
  scan_prices : list EggPrice.t -> list EggPrice.t;
  scan_prices_perm : forall l, Permutation (scan_prices l) l;
  scan_locations : list Location.t -> list Location.t;
  scan_locations_perm : forall l, Permutation (scan_locations l) l
}.

Inductive Result (A : Type) : Type :=
| Ok (a : A)
| Err (e : SqlError).
Arguments Ok {A} a.
Arguments Err {A} e.

(** *** ORDER BY, LIMIT, DISTINCT ON *)

Section OrderBy.
Context {A : Type} (leb : A -> A -> bool).

Fixpoint insert_sorted (x : A) (l : list A) : list A :=
  match l with
  | [] => [x]
  | y :: l' => if leb x y then x :: l else y :: insert_sorted x l'
  end.

Fixpoint order_by (l : list A) : list A :=
  match l with
  | [] => []
  | x :: l' => insert_sorted x (order_by l')
  end.
End OrderBy.

Definition limit {A : Type} (n : Z) (l : list A) : list A :=
  firstn (Z.to_nat n) l.

(** DISTINCT ON (location) over rows sorted on location: a row is kept
    when its location differs from that of the row before it. *)
Fixpoint unique_after (prev : string) (l : list EggPrice.t)
  : list EggPrice.t :=
  match l with
  | [] => []
  | p :: l' =>
      if String.eqb (EggPrice.Location p) prev then unique_after prev l'
      else p :: unique_after (EggPrice.Location p) l'
  end.

Definition distinct_on_location (l : list EggPrice.t) : list EggPrice.t :=
  match l with
  | [] => []
  | p :: l' => p :: unique_after (EggPrice.Location p) l'
  end.

(** A row of the common table expression [latest_prices]. *)
Record LatestPrice : Type := mkLatestPrice {
  lp_location : string;
  lp_price_per_dozen : float;
  lp_date : string
}.

Definition NATIONAL : string := "NATIONAL".

(** ** The handlers *)

(** Handlers read and write the store through the package-level handle
    [db]: a state monad over [DB]. *)
Definition M (A : Type) : Type := DB -> A * DB.

Definition ret {A : Type} (a : A) : M A := fun d => (a, d).

Definition bind {A B : Type} (m : M A) (k : A -> M B) : M B :=
  fun d => let (a, d') := m d in k a d'.

Notation "x <- m ;; k" := (bind m (fun x => k))
  (at level 61, m at next level, right associativity).

Definition journal {T : Type} (q : Statement T) (d : DB) : DB :=
  mkDB (egg_prices d) (locations d) (egg_prices_id_seq d) (now d)
    (reachable d) (statements d ++ [sent q]).

Section Service.
Variable schema : Schema.
Variable plan : Plan.

Definition by_date_desc (a b : EggPrice.t) : bool :=
  le (date_order schema) (EggPrice.Date b) (EggPrice.Date a).

(** [ORDER BY location, date DESC]. *)
Definition by_location_date_desc (a b : EggPrice.t) : bool :=
  if String.eqb (EggPrice.Location a) (EggPrice.Location b)
  then le (date_order schema) (EggPrice.Date b) (EggPrice.Date a)
  else le (collation schema) (EggPrice.Location a) (EggPrice.Location b).

Definition by_name (a b : Location.t) : bool :=
  le (collation schema) (Location.Name a) (Location.Name b).

Definition by_location (a b : ComparisonRow) : bool :=
  le (collation schema) (cr_location a) (cr_location b).

(** [SELECT ... FROM egg_prices [WHERE location = $1]
    ORDER BY date DESC LIMIT $n].  PostgreSQL refuses a negative
    LIMIT when the statement is executed. *)
Definition select_prices (where_location : option string) (n : Z)
    (rows : list EggPrice.t) : Result (list EggPrice.t) :=
  let matched :=
    match where_location with
    | Some loc => filter (fun p => String.eqb (EggPrice.Location p) loc) rows
    | None => rows
    end in
  if n <? 0 then Err NegativeLimit
  else Ok (limit n (order_by by_date_desc matched)).

(** [SELECT id, name, type FROM locations ORDER BY name]. *)
Definition select_locations (rows : list Location.t) : list Location.t :=
  order_by by_name rows.

(** [SELECT DISTINCT ON (location) location, price_per_dozen, date
    FROM egg_prices ORDER BY location, date DESC]. *)
Definition latest_rows (rows : list EggPrice.t) : list EggPrice.t :=
  distinct_on_location (order_by by_location_date_desc rows).

Definition latest_prices (rows : list EggPrice.t) : list LatestPrice :=
  map (fun p => mkLatestPrice (EggPrice.Location p)
                  (EggPrice.PricePerDozen p) (EggPrice.Date p))
      (latest_rows rows).

(** [SELECT price_per_dozen FROM latest_prices
    WHERE location = 'NATIONAL']. *)
Definition national_prices (lps : list LatestPrice) : list float :=
  map lp_price_per_dozen
      (filter (fun lp => String.eqb (lp_location lp) NATIONAL) lps).

(** The comparison query: [latest_prices lp CROSS JOIN (...) np
    WHERE lp.location != 'NATIONAL' ORDER BY lp.location].  The common
    table expression is evaluated once and read twice. *)
Definition select_comparison (rows : list EggPrice.t)
  : list ComparisonRow :=
  let lps := latest_prices rows in
  let joined := list_prod lps (national_prices lps) in
  let kept :=
    filter (fun j => negb (String.eqb (lp_location (fst j)) NATIONAL))
           joined in
  order_by by_location
    (map (fun j => mkComparisonRow (lp_location (fst j))
                     (lp_price_per_dozen (fst j)) (snd j))
         kept).

(** [INSERT INTO egg_prices (date, location, price_per_dozen, source)
    VALUES ($1, $2, $3, $4) RETURNING id]: the row takes the next value
    of the sequence as its id and the server's time as created_at, and
    is added when the constraints of the table admit it. *)
Definition insert_price (date location : string) (price : float)
    (source : string) (d : DB) : Result (list Z) * DB :=
  let id := egg_prices_id_seq d + 1 in
  let row := EggPrice.mk id date location price source (now d) in
  if admits schema (egg_prices d) row
  then (Ok [id],
        mkDB (egg_prices d ++ [row]) (locations d) id (now d)
          (reachable d) (statements d))
  else (Err ConstraintViolated,
        mkDB (egg_prices d) (locations d) id (now d)
          (reachable d) (statements d)).

(** The server's side of a statement. *)
Definition execute {T : Type} (q : Statement T) (d : DB)
  : Result (list T) * DB :=
  match q in Statement T0 return Result (list T0) * DB with
  | SelectPricesWhere location n =>
      (select_prices (Some location) n (scan_prices plan (egg_prices d)), d)
  | SelectPrices n =>
      (select_prices None n (scan_prices plan (egg_prices d)), d)
  | SelectLocations =>
      (Ok (select_locations (scan_locations plan (locations d))), d)
  | InsertPrice date location price source =>
      insert_price date location price source d
  | SelectComparison =>
      (Ok (select_comparison (scan_prices plan (egg_prices d))), d)
  end.

(** [db.Query(query, args...)]: the statement is sent; an unreachable
    server answers nothing and the call returns an error. *)
Definition db_Query {T : Type} (q : Statement T) : M (Result (list T)) :=
  fun d =>
    let d' := journal q d in
    if reachable d' then execute q d' else (Err ConnectionFailed, d').

(** [for rows.Next() { ...; out = append(out, f(row)) }]. *)
Definition collect {T R : Type} (f : T -> R) (rows : list T) : list R :=
  fold_left (fun out row => out ++ [f row]) rows [].

Definition getPricesHandler (r : Request) : M Response :=
  let location := Get (Query r) "location" in
  let limit := Get (Query r) "limit" in
  let limit := if String.eqb limit "" then "30" else limit in
  match Atoi limit with
  | None =>
      ret (http_Error (Literal "Invalid limit parameter") StatusBadRequest)
  | Some limitInt =>
      let query :=
        if negb (String.eqb location "")
        then SelectPricesWhere location limitInt
        else SelectPrices limitInt in
      rows <- db_Query query ;;
      match rows with
      | Err e => ret (http_Error (StoreError e) StatusInternalServerError)
      | Ok rows => ret (json_Encode (Prices (collect (fun p => p) rows)))
      end
  end.

Definition getLocationsHandler (r : Request) : M Response :=
  rows <- db_Query SelectLocations ;;
  match rows with
  | Err e => ret (http_Error (StoreError e) StatusInternalServerError)
  | Ok rows => ret (json_Encode (Locations (collect (fun l => l) rows)))
  end.

(** [db.QueryRow(...).Scan(&price.ID)]. *)
Definition with_ID (price : EggPrice.t) (id : Z) : EggPrice.t :=
  EggPrice.mk id (EggPrice.Date price) (EggPrice.Location price)
    (EggPrice.PricePerDozen price) (EggPrice.Source price)
    (EggPrice.CreatedAt price).

Definition addPriceHandler (r : Request) : M Response :=
  if negb (String.eqb (Method r) "POST")
  then ret (http_Error (Literal "Method not allowed")
              StatusMethodNotAllowed)
  else
    match Body r with
    | Malformed => ret (http_Error DecodeError StatusBadRequest)
    | Payload price =>
        rows <- db_Query (InsertPrice (EggPrice.Date price)
                            (EggPrice.Location price)
                            (EggPrice.PricePerDozen price)
                            (EggPrice.Source price)) ;;
        match rows with
        | Err e => ret (http_Error (StoreError e) StatusInternalServerError)
        | Ok [] => ret (http_Error (Literal "sql: no rows in result set")
                          StatusInternalServerError)
        | Ok (id :: _) => ret (json_Encode (Price (with_ID price id)))
        end
    end.

(** The body of the loop of getComparisonHandler. *)
Definition compare (row : ComparisonRow) : PriceComparison.t :=
  let c := PriceComparison.zero in
  let c := PriceComparison.mk (cr_location row) (cr_price_per_dozen row)
             (cr_national_price row) (PriceComparison.Difference c)
             (PriceComparison.Percentage c) in
  let c := PriceComparison.mk (PriceComparison.Location c)
             (PriceComparison.CurrentPrice c)
             (PriceComparison.NationalPrice c)
             (PriceComparison.CurrentPrice c
              - PriceComparison.NationalPrice c)%float
             (PriceComparison.Percentage c) in
  if (0 <? PriceComparison.NationalPrice c)%float
  then PriceComparison.mk (PriceComparison.Location c)
         (PriceComparison.CurrentPrice c)
         (PriceComparison.NationalPrice c)
         (PriceComparison.Difference c)
         (PriceComparison.Difference c
          / PriceComparison.NationalPrice c * 100)%float
  else c.

Definition getComparisonHandler (r : Request) : M Response :=
  rows <- db_Query SelectComparison ;;
  match rows with
  | Err e => ret (http_Error (StoreError e) StatusInternalServerError)
  | Ok rows => ret (json_Encode (Comparisons (collect compare rows)))
  end.

(** *** The routes of [main] *)

Inductive Operation : Type :=
| ListPrices
| AddPrice
| ListLocations
| Compare.

(** The four routes registered on the [/api] subrouter.  Any other
    request is answered by the file server or by the router itself and
    runs no handler of this program. *)
Definition route (r : Request) : option Operation :=
  if String.eqb (Path r) "/api/prices" then
    if String.eqb (Method r) "GET" then Some ListPrices
    else if String.eqb (Method r) "POST" then Some AddPrice
    else None
  else if String.eqb (Path r) "/api/locations" then
    if String.eqb (Method r) "GET" then Some ListLocations else None
  else if String.eqb (Path r) "/api/comparison" then
    if String.eqb (Method r) "GET" then Some Compare else None
  else None.

Definition handler (o : Operation) : Request -> M Response :=
  match o with
  | ListPrices => getPricesHandler
  | AddPrice => addPriceHandler
  | ListLocations => getLocationsHandler
  | Compare => getComparisonHandler
  end.

Definition serve (r : Request) : M (option Response) :=
  match route r with
  | Some o => w <- handler o r ;; ret (Some w)
  | None => ret None
  end.
End Service.

(** ** Configuration

    [os.Getenv] gives the value of a variable, and the empty string when
    the variable is not set: the environment is a function from names to
    values. *)

Definition Env : Type := string -> string.

Definition getEnv (env : Env) (key defaultValue : string) : string :=
  let value := env key in
  if negb (String.eqb value "") then value else defaultValue.

(** The connection string [initDB] hands to [sql.Open]:
    [fmt.Sprintf("host=%s port=%s user=%s password=%s dbname=%s
    sslmode=disable", ...)]. *)
Definition psqlInfo (env : Env) : string :=
  let dbHost := getEnv env "DB_HOST" "localhost" in
  let dbPort := getEnv env "DB_PORT" "5432" in
  let dbUser := getEnv env "DB_USER" "postgres" in
  let dbPassword := getEnv env "DB_PASSWORD" "password" in
  let dbName := getEnv env "DB_NAME" "egg_tracker" in
  ("host=" ++ dbHost ++ " port=" ++ dbPort ++ " user=" ++ dbUser
   ++ " password=" ++ dbPassword ++ " dbname=" ++ dbName
   ++ " sslmode=disable")%string.

(** The address [main] listens on: [":" + port]. *)
Definition listen_address (env : Env) : string :=
  let port := getEnv env "PORT" "8080" in
  (":" ++ port)%string.

(** ** The vocabulary of the properties *)

Definition listed (w : Response) : list EggPrice.t :=
  match Written w with
  | Encoded (Prices l) => l
  | _ => []
  end.

Definition compared (w : Response) : list PriceComparison.t :=
  match Written w with
  | Encoded (Comparisons l) => l
  | _ => []
  end.

(** The two tables, without the bookkeeping of the connection. *)
Definition tables (d : DB) : list EggPrice.t * list Location.t :=
  (egg_prices d, locations d).

(** The handler once the limit has been read: one statement is sent,
    the answer is either the rows or the store's error. *)
Definition listing_query (r : Request) (n : Z) : Sent :=
  if negb (String.eqb (Get (Query r) "location") "")
  then sent (SelectPricesWhere (Get (Query r) "location") n)
  else sent (SelectPrices n).

Definition listing_filter (r : Request) : option string :=
  if negb (String.eqb (Get (Query r) "location") "")
  then Some (Get (Query r) "location")
  else None.

(** The row the INSERT of a payload adds to [egg_prices]. *)
Definition new_row (d : DB) (price : EggPrice.t) : EggPrice.t :=
  EggPrice.mk (egg_prices_id_seq d + 1) (EggPrice.Date price)
    (EggPrice.Location price) (EggPrice.PricePerDozen price)
    (EggPrice.Source price) (now d).

(** The store takes the write: it is reachable and the constraints of
    the table admit the row. *)
Definition write_succeeds (schema : Schema) (d : DB) (price : EggPrice.t)
  : bool :=
  reachable d && admits schema (egg_prices d) (new_row d price).

Definition is_select {T : Type} (q : Statement T) : bool :=
  match q with
  | InsertPrice _ _ _ _ => false
  | _ => true
  end.

Definition not_national (k : string) : bool := negb (String.eqb k NATIONAL).

(** Strictly before, in the collation. *)
Definition before (schema : Schema) (a b : string) : Prop :=
  le (collation schema) a b = true /\ a <> b.

Definition row_le (schema : Schema) (a b : EggPrice.t) : Prop :=
  by_location_date_desc schema a b = true.

(** The table holds one observation per location and date (spec,
    section 2: the price store is keyed by (date, location)). *)
Definition keyed (rows : list EggPrice.t) : Prop :=
  forall a b,
    In a rows -> In b rows ->
    EggPrice.Location a = EggPrice.Location b ->
    EggPrice.Date a = EggPrice.Date b ->
    a = b.

(** Observations of one location that share its latest date carry the
    same price. *)
Definition ties_agree_on_price (schema : Schema) (rows : list EggPrice.t)
  : Prop :=
  forall a b,
    In a rows -> In b rows ->
    EggPrice.Location a = EggPrice.Location b ->
    EggPrice.Date a = EggPrice.Date b ->
    (forall c, In c rows -> EggPrice.Location c = EggPrice.Location a ->
               le (date_order schema) (EggPrice.Date c) (EggPrice.Date a)
               = true) ->
    EggPrice.PricePerDozen a = EggPrice.PricePerDozen b.

(** The limit of a listing request is [n]: the parameter is absent or
    empty and [n] is the default, or it parses as [n] and [n] is not
    negative. *)
Definition limit_is (r : Request) (n : Z) : Prop :=
  (Get (Query r) "limit" = "" /\ n = 30) \/
  (Atoi (Get (Query r) "limit") = Some n /\ 0 <= n).

(** The rows of [egg_prices] a listing request asks for. *)
Definition matching (r : Request) (rows : list EggPrice.t)
  : list EggPrice.t :=
  match listing_filter r with
  | Some l => filter (fun p => String.eqb (EggPrice.Location p) l) rows
  | None => rows
  end.

Definition sent_is_select (s : Sent) : bool :=
  match s with
  | sent q => is_select q
  end.

Definition date_le (schema : Schema) (a b : EggPrice.t) : Prop :=
  le (date_order schema) (EggPrice.Date a) (EggPrice.Date b) = true.

(** [v] is the setting read from variable [key] with default [def]: the
    value of the variable unless that is empty, and never empty. *)
Definition setting (env : Env) (key def v : string) : Prop :=
  v <> "" /\
  (env key = "" -> v = def) /\
  (env key <> "" -> v = env key).

(** The store with another journal of statements. *)
Definition with_statements (d : DB) (js : list Sent) : DB :=
  mkDB (egg_prices d) (locations d) (egg_prices_id_seq d) (now d)
    (reachable d) js.

(** ** A concrete schema, two plans and sample stores

    Text is ordered bytewise (the C collation) and dates, in the ISO form
    [YYYY-MM-DD], by the same order; no constraint beyond the column
    types. *)

Lemma string_leb_refl (a : string) : String.leb a a = true.
Proof. destruct (String.leb_total a a); assumption. Qed.

Lemma string_leb_trans (a b c : string) :
  String.leb a b = true -> String.leb b c = true -> String.leb a c = true.
Proof.
  unfold String.leb.
  revert b c; induction a as [|x a IH]; intros [|y b] [|z c]; simpl;
    try congruence.
  unfold Ascii.compare.
  destruct (N.compare_spec (N_of_ascii x) (N_of_ascii y)) as [Hxy|Hxy|Hxy];
    destruct (N.compare_spec (N_of_ascii y) (N_of_ascii z)) as [Hyz|Hyz|Hyz];
    destruct (N.compare_spec (N_of_ascii x) (N_of_ascii z)) as [Hxz|Hxz|Hxz];
    try congruence; try lia.
  apply IH.
Qed.

Definition bytewise : Ordering :=
  mkOrdering String.leb String.leb_total string_leb_trans String.leb_antisym.

Definition plain_schema : Schema :=
  mkSchema bytewise bytewise (fun _ _ => true).

(** The rows in the order they were added, and in the opposite order. *)
Definition heap_order : Plan :=
  mkPlan (fun l => l) (fun l => Permutation_refl l)
         (fun l => l) (fun l => Permutation_refl l).

Definition backwards : Plan :=
  mkPlan (@rev _) (fun l => Permutation_sym (Permutation_rev l))
         (@rev _) (fun l => Permutation_sym (Permutation_rev l)).

Definition empty_db : DB := mkDB [] [] 0 "2024-01-16 09:00:00" true [].

(** The store of the scenario of the spec: one NATIONAL and one
    California observation of the same day. *)
Definition national_2 : EggPrice.t :=
  EggPrice.mk 1 "2024-01-15" "NATIONAL" 2%float "seed" "2024-01-16 09:00:00".

Definition california_2_5 : EggPrice.t :=
  EggPrice.mk 2 "2024-01-15" "California" 2.5%float "seed"
    "2024-01-16 09:00:00".

(** An earlier California observation, and a second report of the
    California price of 2024-01-15. *)
Definition california_earlier : EggPrice.t :=
  EggPrice.mk 3 "2024-01-10" "California" 3.5%float "seed"
    "2024-01-16 09:00:00".

Definition california_2_5_again : EggPrice.t :=
  EggPrice.mk 4 "2024-01-15" "California" 2.5%float "market"
    "2024-01-16 09:00:00".

Definition seeded : DB :=
  mkDB [national_2; california_2_5] [] 2 "2024-01-16 09:00:00" true [].

Definition california_only : DB :=
  mkDB [california_2_5] [] 2 "2024-01-16 09:00:00" true [].

(** One observation per location and date, two dates for California. *)
Definition history : DB :=
  mkDB [national_2; california_earlier; california_2_5] [] 3
    "2024-01-16 09:00:00" true [].

(** The same with the latest California price reported twice. *)
Definition reported_twice : DB :=
  mkDB [national_2; california_earlier; california_2_5; california_2_5_again]
    [] 4 "2024-01-16 09:00:00" true [].

Definition get (path : string) (query : list (string * string)) : Request :=
  mkRequest "GET" path query Malformed.

Definition post (price : EggPrice.t) : Request :=
  mkRequest "POST" "/api/prices" [] (Payload price).

Definition comparison_request : Request := get "/api/comparison" [].

Definition california_payload : EggPrice.t :=
  EggPrice.mk 0 "2024-01-17" "California" 2.25%float "Local Market" "".

(** A payload no validation would let through: no date, no location, a
    negative price. *)
Definition careless_payload : EggPrice.t :=
  EggPrice.mk 0 "" "" (-1)%float "" "".

(** A store with two registered locations, and the store of the scenario
    behind a server that cannot be reached. *)
Definition registered : DB :=
  mkDB [national_2; california_2_5]
    [Location.mk 1 "NATIONAL" "national"; Location.mk 2 "California" "state"]
    2 "2024-01-16 09:00:00" true [].

Definition unreachable : DB :=
  mkDB [national_2; california_2_5] [] 2 "2024-01-16 09:00:00" false [].

Definition no_env : Env := fun _ => "".

(** The payload of the README with an id and a created_at of the
    client's making. *)
Definition forged_payload : EggPrice.t :=
  EggPrice.mk 999 "2024-01-17" "California" 2.25%float "Local Market"
    "1999-12-31 23:59:59".

Definition texas_3 : EggPrice.t :=
  EggPrice.mk 3 "2024-01-15" "Texas" 3%float "seed" "2024-01-16 09:00:00".

Definition three_locations : DB :=
  mkDB [national_2; california_2_5; texas_3] [] 3 "2024-01-16 09:00:00"
    true [].

(** A later California observation. *)
Definition california_later : EggPrice.t :=
  EggPrice.mk 0 "2024-02-01" "California" 4%float "market" "".

(** * Properties *)

(** ** strconv.Atoi on samples *)

Example Atoi_30 : Atoi "30" = Some 30. Proof. reflexivity. Qed.
Example Atoi_abc : Atoi "abc" = None. Proof. reflexivity. Qed.
Example Atoi_minus_one : Atoi "-1" = Some (-1). Proof. reflexivity. Qed.
Example Atoi_sign_only : Atoi "-" = None. Proof. reflexivity. Qed.
Example Atoi_overflow : Atoi "9223372036854775808" = None.
Proof. reflexivity. Qed.

(** ** ORDER BY sorts and keeps the rows *)

Section OrderByFacts.
Context {A : Type} (leb : A -> A -> bool).
Hypothesis leb_total : forall a b, leb a b = true \/ leb b a = true.
Hypothesis leb_trans :
  forall a b c, leb a b = true -> leb b c = true -> leb a c = true.

Let lebP (a b : A) : Prop := leb a b = true.

Lemma insert_sorted_perm (x : A) (l : list A) :
  Permutation (insert_sorted leb x l) (x :: l).
Proof.
  induction l as [|y l IH]; simpl.
  - apply Permutation_refl.
  - destruct (leb x y).
    + apply Permutation_refl.
    + apply perm_trans with (y :: x :: l).
      * apply perm_skip, IH.
      * apply perm_swap.
Qed.

Lemma order_by_perm (l : list A) : Permutation (order_by leb l) l.
Proof.
  induction l as [|x l IH]; simpl.
  - apply perm_nil.
  - apply perm_trans with (x :: order_by leb l).
    + apply insert_sorted_perm.
    + apply perm_skip, IH.
Qed.

Lemma order_by_In (x : A) (l : list A) : In x (order_by leb l) <-> In x l.
Proof.
  split; apply Permutation_in.
  - apply order_by_perm.
  - apply Permutation_sym, order_by_perm.
Qed.

Lemma insert_sorted_sorted (x : A) (l : list A) :
  StronglySorted lebP l -> StronglySorted lebP (insert_sorted leb x l).
Proof.
  induction 1 as [|y l Hs IH Hy]; simpl.
  - constructor; constructor.
  - destruct (leb x y) eqn:Hxy.
    + constructor.
      * constructor; assumption.
      * constructor; [exact Hxy|].
        eapply Forall_impl; [|exact Hy].
        intros z Hz; unfold lebP in *; eauto.
    + constructor; [exact IH|].
      assert (Hyx : lebP y x).
      { destruct (leb_total x y) as [H|H]; [congruence|exact H]. }
      apply Forall_forall; intros z Hz.
      apply (Permutation_in _ (insert_sorted_perm x l)) in Hz.
      destruct Hz as [<-|Hz]; [exact Hyx|].
      rewrite Forall_forall in Hy; auto.
Qed.

Lemma order_by_sorted (l : list A) : StronglySorted lebP (order_by leb l).
Proof.
  induction l as [|x l IH]; simpl.
  - constructor.
  - apply insert_sorted_sorted, IH.
Qed.

(** Sorting is stable: rows already in order are left as they are. *)
Lemma order_by_sorted_id (l : list A) :
  StronglySorted lebP l -> order_by leb l = l.
Proof.
  induction 1 as [|x l Hs IH Hx]; simpl; [reflexivity|].
  rewrite IH. destruct l as [|y l]; [reflexivity|].
  simpl. inversion Hx as [|? ? Hxy _]; subst.
  unfold lebP in Hxy. rewrite Hxy. reflexivity.
Qed.

End OrderByFacts.

Lemma collect_map {T R : Type} (f : T -> R) (rows : list T) :
  collect f rows = map f rows.
Proof.
  unfold collect.
  enough (H : forall acc, fold_left (fun out row => out ++ [f row]) rows acc
                          = acc ++ map f rows) by apply (H []).
  induction rows as [|x rows IH]; intros acc; simpl.
  - now rewrite app_nil_r.
  - rewrite IH, <- app_assoc. reflexivity.
Qed.

Lemma collect_id {T : Type} (rows : list T) : collect (fun x => x) rows = rows.
Proof. rewrite collect_map. apply map_id. Qed.

Lemma firstn_In {A : Type} (x : A) (n : nat) (l : list A) :
  In x (firstn n l) -> In x l.
Proof.
  revert n; induction l as [|y l IH]; intros [|n]; simpl; try tauto.
  intros [H|H]; [left; exact H|right; eapply IH; exact H].
Qed.

Lemma StronglySorted_firstn {A : Type} (R : A -> A -> Prop) (n : nat)
    (l : list A) :
  StronglySorted R l -> StronglySorted R (firstn n l).
Proof.
  intros Hs; revert n; induction Hs as [|x l Hs IH Hx]; intros [|n]; simpl;
    try constructor.
  - apply IH.
  - apply Forall_forall; intros y Hy.
    rewrite Forall_forall in Hx; apply Hx.
    eapply firstn_In; exact Hy.
Qed.

(** ** Price listing *)

Section Listing.
Variable schema : Schema.
Variable plan : Plan.

Let date_desc (a b : EggPrice.t) : Prop :=
  le (date_order schema) (EggPrice.Date b) (EggPrice.Date a) = true.

Lemma by_date_desc_total (a b : EggPrice.t) :
  by_date_desc schema a b = true \/ by_date_desc schema b a = true.
Proof. unfold by_date_desc. apply le_total. Qed.

Lemma by_date_desc_trans (a b c : EggPrice.t) :
  by_date_desc schema a b = true -> by_date_desc schema b c = true ->
  by_date_desc schema a c = true.
Proof. unfold by_date_desc. intros H1 H2. eapply le_trans; eauto. Qed.

(** What the SELECT of the listing returns, whatever the plan. *)
Lemma select_prices_ok (loc : option string) (n : Z)
    (rows out : list EggPrice.t) :
  select_prices schema loc n rows = Ok out ->
  0 <= n /\
  Z.of_nat (List.length out) <= n /\
  incl out rows /\
  (forall l, loc = Some l -> Forall (fun p => EggPrice.Location p = l) out) /\
  StronglySorted date_desc out.
Proof.
  unfold select_prices, limit.
  destruct (Z.ltb_spec n 0) as [Hn|Hn]; [discriminate|].
  intros [= <-].
  set (matched := match loc with
                  | Some l => filter _ rows
                  | None => rows
                  end).
  assert (Hm : incl matched rows).
  { subst matched; destruct loc; [|apply incl_refl].
    intros p Hp; apply filter_In in Hp; tauto. }
  repeat split.
  - exact Hn.
  - pose proof (firstn_le_length (Z.to_nat n)
                  (order_by (by_date_desc schema) matched)).
    lia.
  - intros p Hp. apply Hm.
    apply (proj1 (order_by_In (by_date_desc schema) _ _)).
    eapply firstn_In; exact Hp.
  - intros l ->. apply Forall_forall; intros p Hp.
    apply firstn_In in Hp.
    apply (proj1 (order_by_In (by_date_desc schema) _ _)) in Hp.
    subst matched. apply filter_In in Hp.
    apply String.eqb_eq. tauto.
  - apply StronglySorted_firstn.
    apply (order_by_sorted (by_date_desc schema)).
    + apply by_date_desc_total.
    + apply by_date_desc_trans.
Qed.

Lemma select_prices_negative (loc : option string) (n : Z)
    (rows : list EggPrice.t) :
  n < 0 -> select_prices schema loc n rows = Err NegativeLimit.
Proof.
  intros Hn. unfold select_prices.
  destruct (Z.ltb_spec n 0); [reflexivity|lia].
Qed.

Lemma select_prices_zero (loc : option string) (rows : list EggPrice.t) :
  select_prices schema loc 0 rows = Ok [].
Proof. reflexivity. Qed.

Lemma getPricesHandler_parsed (r : Request) (d : DB) (n : Z) :
  Atoi (if String.eqb (Get (Query r) "limit") "" then "30"
        else Get (Query r) "limit") = Some n ->
  getPricesHandler schema plan r d =
    (if reachable d
     then match select_prices schema (listing_filter r) n
                  (scan_prices plan (egg_prices d)) with
          | Ok rows => json_Encode (Prices rows)
          | Err e => http_Error (StoreError e) StatusInternalServerError
          end
     else http_Error (StoreError ConnectionFailed)
            StatusInternalServerError,
     mkDB (egg_prices d) (locations d) (egg_prices_id_seq d) (now d)
       (reachable d) (statements d ++ [listing_query r n])).
Proof.
  intros Hn. unfold getPricesHandler, listing_filter, listing_query.
  rewrite Hn.
  destruct (negb (String.eqb (Get (Query r) "location") ""));
    unfold bind, db_Query, journal, ret; simpl;
    destruct (reachable d); simpl; try reflexivity;
    match goal with
    | |- context [select_prices ?s ?l ?k ?rows] =>
        destruct (select_prices s l k rows)
    end; simpl; rewrite ?collect_id; reflexivity.
Qed.
End Listing.

Lemma limit_given (s : string) (n : Z) :
  Atoi s = Some n -> (if String.eqb s "" then "30" else s) = s.
Proof. destruct s; [discriminate|reflexivity]. Qed.

(** C5: for every store state, every valid limit n (an integer that is not
    negative) and any location filter, the listing returns at most n
    observations of the store, each at the requested location when a
    filter is given (exact match), sorted by date descending; without a
    limit parameter the bound is 30. *)
Theorem listing_at_most_limit_filtered_sorted
    (schema : Schema) (plan : Plan) (r : Request) (d : DB) (n : Z) :
  (Get (Query r) "limit" = "" /\ n = 30) \/
  (Atoi (Get (Query r) "limit") = Some n /\ 0 <= n) ->
  let w := fst (getPricesHandler schema plan r d) in
  Z.of_nat (List.length (listed w)) <= n /\
  (Get (Query r) "location" <> "" ->
   Forall (fun p => EggPrice.Location p = Get (Query r) "location")
          (listed w)) /\
  StronglySorted
    (fun a b => le (date_order schema) (EggPrice.Date b) (EggPrice.Date a)
                = true)
    (listed w) /\
  incl (listed w) (egg_prices d) /\
  (reachable d = true -> w = json_Encode (Prices (listed w))).
Proof.
  intros Hlimit.
  assert (Hn : Atoi (if String.eqb (Get (Query r) "limit") "" then "30"
                     else Get (Query r) "limit") = Some n /\ 0 <= n).
  { destruct Hlimit as [[-> ->]|[Hp Hn]].
    - split; [reflexivity|lia].
    - rewrite (limit_given _ _ Hp). split; assumption. }
  destruct Hn as [Hp Hn].
  rewrite (getPricesHandler_parsed schema plan r d n Hp). cbn [fst].
  destruct (reachable d).
  - destruct (select_prices schema (listing_filter r) n
                (scan_prices plan (egg_prices d))) as [out|e] eqn:Hsel.
    + apply select_prices_ok in Hsel.
      destruct Hsel as (_ & Hlen & Hincl & Hloc & Hsorted).
      cbn. repeat split; try assumption.
      * intros Hgiven. apply Hloc. unfold listing_filter.
        destruct (String.eqb_spec (Get (Query r) "location") "");
          [contradiction|reflexivity].
      * intros p Hp'. apply Hincl in Hp'.
        eapply Permutation_in; [apply scan_prices_perm|exact Hp'].
    + unfold select_prices in Hsel.
      destruct (Z.ltb_spec n 0); [lia|discriminate].
  - cbn. repeat split; try lia; try constructor; try discriminate.
    intros p [].
Qed.

Lemma listing_at_most_limit_filtered_sorted_witness :
  let r := get "/api/prices" [("location", "NATIONAL"); ("limit", "1")] in
  let w := fst (getPricesHandler plain_schema heap_order r seeded) in
  Z.of_nat (List.length (listed w)) <= 1 /\
  (Get (Query r) "location" <> "" ->
   Forall (fun p => EggPrice.Location p = Get (Query r) "location")
          (listed w)) /\
  StronglySorted
    (fun a b => le (date_order plain_schema) (EggPrice.Date b)
                  (EggPrice.Date a) = true)
    (listed w) /\
  incl (listed w) (egg_prices seeded) /\
  (reachable seeded = true -> w = json_Encode (Prices (listed w))).
Proof.
  apply (listing_at_most_limit_filtered_sorted plain_schema heap_order
           (get "/api/prices" [("location", "NATIONAL"); ("limit", "1")])
           seeded 1).
  right. split; [reflexivity|lia].
Defined.

Example listing_national_limit_1 :
  listed (fst (getPricesHandler plain_schema heap_order
                 (get "/api/prices" [("location", "NATIONAL"); ("limit", "1")])
                 seeded))
  = [national_2].
Proof. reflexivity. Qed.

(** C6, as the code has it: a limit value that is not empty and does not
    parse as an integer is answered 400 "Invalid limit parameter"; no
    record is returned, no statement is sent and the store is as it
    was. *)
Theorem listing_rejects_unparsable_limit
    (schema : Schema) (plan : Plan) (r : Request) (d : DB) :
  Get (Query r) "limit" <> "" ->
  Atoi (Get (Query r) "limit") = None ->
  let (w, d') := getPricesHandler schema plan r d in
  w = http_Error (Literal "Invalid limit parameter") StatusBadRequest /\
  client_error w = true /\
  listed w = [] /\
  statements d' = statements d /\
  d' = d.
Proof.
  intros Hgiven Hbad. unfold getPricesHandler.
  destruct (String.eqb_spec (Get (Query r) "limit") ""); [contradiction|].
  rewrite Hbad. cbn. repeat split.
Qed.

Lemma listing_rejects_unparsable_limit_witness :
  let (w, d') := getPricesHandler plain_schema heap_order
                   (get "/api/prices" [("limit", "abc")]) seeded in
  w = http_Error (Literal "Invalid limit parameter") StatusBadRequest /\
  client_error w = true /\
  listed w = [] /\
  statements d' = statements seeded /\
  d' = seeded.
Proof.
  apply (listing_rejects_unparsable_limit plain_schema heap_order
           (get "/api/prices" [("limit", "abc")]) seeded).
  - discriminate.
  - reflexivity.
Defined.

(** C6 as stated fails on the empty value: [limit=] does not parse as an
    integer, and the handler reads it as the default 30, queries the store
    and returns records. *)
Lemma listing_empty_limit_is_default :
  let r := get "/api/prices" [("limit", "")] in
  Atoi (Get (Query r) "limit") = None /\
  let (w, d') := getPricesHandler plain_schema heap_order r seeded in
  StatusCode w = StatusOK /\
  client_error w = false /\
  List.length (listed w) = 2%nat /\
  statements d' = [sent (SelectPrices 30)].
Proof. cbn. repeat split. Qed.

(** C10: every limit that parses as an integer passes the parameter check
    and is sent to the store as the LIMIT of the query, zero and negative
    values included; with the store reachable, limit 0 is answered with
    an empty result and a negative limit with the store's error as an
    internal error, not as a client error. *)
Theorem listing_forwards_any_integer_limit
    (schema : Schema) (plan : Plan) (r : Request) (d : DB) (n : Z) :
  Atoi (Get (Query r) "limit") = Some n ->
  let (w, d') := getPricesHandler schema plan r d in
  client_error w = false /\
  statements d' = statements d ++ [listing_query r n] /\
  (reachable d = true ->
   (n = 0 -> w = json_Encode (Prices [])) /\
   (n < 0 ->
    w = http_Error (StoreError NegativeLimit) StatusInternalServerError /\
    internal_error w = true)).
Proof.
  intros Hp.
  rewrite (getPricesHandler_parsed schema plan r d n);
    [|rewrite (limit_given _ _ Hp); exact Hp].
  split; [|split].
  - destruct (reachable d); [|reflexivity].
    destruct (select_prices _ _ _ _); reflexivity.
  - reflexivity.
  - intros ->. split.
    + intros ->. rewrite select_prices_zero. reflexivity.
    + intros Hneg. rewrite select_prices_negative by assumption.
      split; reflexivity.
Qed.

Lemma listing_forwards_any_integer_limit_witness :
  let (w, d') := getPricesHandler plain_schema heap_order
                   (get "/api/prices" [("limit", "-1")]) seeded in
  client_error w = false /\
  statements d' = statements seeded
                  ++ [listing_query (get "/api/prices" [("limit", "-1")])
                        (-1)] /\
  (reachable seeded = true ->
   (-1 = 0 -> w = json_Encode (Prices [])) /\
   (-1 < 0 ->
    w = http_Error (StoreError NegativeLimit) StatusInternalServerError /\
    internal_error w = true)).
Proof.
  apply (listing_forwards_any_integer_limit plain_schema heap_order
           (get "/api/prices" [("limit", "-1")]) seeded (-1)).
  reflexivity.
Defined.

Example listing_limit_zero :
  fst (getPricesHandler plain_schema heap_order
         (get "/api/prices" [("limit", "0")]) seeded)
  = json_Encode (Prices []).
Proof. reflexivity. Qed.

Example listing_limit_minus_one :
  fst (getPricesHandler plain_schema heap_order
         (get "/api/prices" [("limit", "-1")]) seeded)
  = http_Error (StoreError NegativeLimit) StatusInternalServerError.
Proof. reflexivity. Qed.

(** ** Price insertion *)

Lemma route_AddPrice (r : Request) :
  route r = Some AddPrice -> Method r = "POST".
Proof.
  unfold route.
  destruct (String.eqb (Path r) "/api/prices").
  - destruct (String.eqb (Method r) "GET"); [discriminate|].
    destruct (String.eqb_spec (Method r) "POST"); [tauto|discriminate].
  - destruct (String.eqb (Path r) "/api/locations").
    + destruct (String.eqb (Method r) "GET"); discriminate.
    + destruct (String.eqb (Path r) "/api/comparison"); [|discriminate].
      destruct (String.eqb (Method r) "GET"); discriminate.
Qed.

Section Insertion.
Variable schema : Schema.
Variable plan : Plan.

Lemma addPriceHandler_malformed (r : Request) (d : DB) :
  Method r = "POST" -> Body r = Malformed ->
  addPriceHandler schema plan r d
  = (http_Error DecodeError StatusBadRequest, d).
Proof.
  intros Hm Hb. unfold addPriceHandler. rewrite Hm, Hb. reflexivity.
Qed.

Lemma addPriceHandler_payload (r : Request) (d : DB) (price : EggPrice.t) :
  Method r = "POST" -> Body r = Payload price ->
  addPriceHandler schema plan r d
  = let q := sent (InsertPrice (EggPrice.Date price)
                     (EggPrice.Location price)
                     (EggPrice.PricePerDozen price)
                     (EggPrice.Source price)) in
    if reachable d then
      if admits schema (egg_prices d) (new_row d price)
      then (json_Encode (Price (with_ID price (egg_prices_id_seq d + 1))),
            mkDB (egg_prices d ++ [new_row d price]) (locations d)
              (egg_prices_id_seq d + 1) (now d) (reachable d)
              (statements d ++ [q]))
      else (http_Error (StoreError ConstraintViolated)
              StatusInternalServerError,
            mkDB (egg_prices d) (locations d) (egg_prices_id_seq d + 1)
              (now d) (reachable d) (statements d ++ [q]))
    else (http_Error (StoreError ConnectionFailed)
            StatusInternalServerError,
          mkDB (egg_prices d) (locations d) (egg_prices_id_seq d)
            (now d) (reachable d) (statements d ++ [q])).
Proof.
  intros Hm Hb. unfold addPriceHandler. rewrite Hm, Hb.
  unfold bind, db_Query, journal, ret, new_row; cbn.
  destruct (reachable d); [|reflexivity].
  cbn. unfold insert_price; cbn.
  destruct (admits schema (egg_prices d) _); reflexivity.
Qed.
End Insertion.

(** C7, as the code has it: for a payload that parses and a store write
    that succeeds, the response is the payload with the generated id put
    in: the submitted date, location, price_per_dozen and source, the id
    of the stored row, and as created_at whatever the payload carried
    (the empty string when it carried none).  The created_at the server
    assigns is in the stored row only. *)
Theorem insert_returns_payload_with_generated_id
    (schema : Schema) (plan : Plan) (r : Request) (d : DB)
    (price : EggPrice.t) :
  Method r = "POST" ->
  Body r = Payload price ->
  write_succeeds schema d price = true ->
  let (w, d') := addPriceHandler schema plan r d in
  let stored := new_row d price in
  egg_prices d' = egg_prices d ++ [stored] /\
  w = json_Encode
        (Price (EggPrice.mk (EggPrice.ID stored) (EggPrice.Date price)
                  (EggPrice.Location price) (EggPrice.PricePerDozen price)
                  (EggPrice.Source price) (EggPrice.CreatedAt price))) /\
  EggPrice.Date stored = EggPrice.Date price /\
  EggPrice.Location stored = EggPrice.Location price /\
  EggPrice.PricePerDozen stored = EggPrice.PricePerDozen price /\
  EggPrice.Source stored = EggPrice.Source price /\
  EggPrice.CreatedAt stored = now d.
Proof.
  intros Hm Hb Hw. unfold write_succeeds in Hw.
  apply andb_true_iff in Hw. destruct Hw as [Hr Ha].
  rewrite (addPriceHandler_payload schema plan r d price Hm Hb).
  cbv zeta. rewrite Hr, Ha. repeat split.
Qed.

Lemma insert_returns_payload_with_generated_id_witness :
  let (w, d') := addPriceHandler plain_schema heap_order
                   (post california_payload) seeded in
  let stored := new_row seeded california_payload in
  egg_prices d' = egg_prices seeded ++ [stored] /\
  w = json_Encode
        (Price (EggPrice.mk (EggPrice.ID stored)
                  (EggPrice.Date california_payload)
                  (EggPrice.Location california_payload)
                  (EggPrice.PricePerDozen california_payload)
                  (EggPrice.Source california_payload)
                  (EggPrice.CreatedAt california_payload))) /\
  EggPrice.Date stored = EggPrice.Date california_payload /\
  EggPrice.Location stored = EggPrice.Location california_payload /\
  EggPrice.PricePerDozen stored = EggPrice.PricePerDozen california_payload /\
  EggPrice.Source stored = EggPrice.Source california_payload /\
  EggPrice.CreatedAt stored = now seeded.
Proof.
  apply (insert_returns_payload_with_generated_id plain_schema heap_order
           (post california_payload) seeded california_payload);
    reflexivity.
Defined.

(** C7 as stated fails on created_at: the README's request body, which
    carries no created_at, is stored with the server's timestamp and
    answered with an empty created_at. *)
Lemma insert_does_not_return_server_created_at :
  let (w, d') := addPriceHandler plain_schema heap_order
                   (post california_payload) seeded in
  exists returned stored,
    w = json_Encode (Price returned) /\
    egg_prices d' = egg_prices seeded ++ [stored] /\
    EggPrice.ID returned = EggPrice.ID stored /\
    EggPrice.CreatedAt stored = "2024-01-16 09:00:00" /\
    EggPrice.CreatedAt returned = "" /\
    EggPrice.CreatedAt returned <> EggPrice.CreatedAt stored.
Proof.
  cbn. eexists; eexists. repeat split. discriminate.
Qed.

(** C8: the insert operation answers a client error exactly when the body
    does not parse.  A payload that parses is not validated: when the
    store takes the write it is answered 200 and stored with its date,
    location, price and source as given; when the store refuses the
    write the answer is the store's error as an internal error and no row
    is added. *)
Theorem insert_client_error_iff_malformed
    (schema : Schema) (plan : Plan) (r : Request) (d : DB) :
  route r = Some AddPrice ->
  let (w, d') := handler schema plan AddPrice r d in
  (client_error w = true <-> Body r = Malformed) /\
  (forall price, Body r = Payload price ->
     if write_succeeds schema d price
     then StatusCode w = StatusOK /\
          egg_prices d' = egg_prices d ++ [new_row d price]
     else internal_error w = true /\
          (exists e, Written w = Text (StoreError e)) /\
          egg_prices d' = egg_prices d).
Proof.
  intros Hroute. apply route_AddPrice in Hroute. cbn [handler].
  destruct (Body r) as [|price] eqn:Hb.
  - rewrite (addPriceHandler_malformed schema plan r d Hroute Hb).
    split; [split; reflexivity|discriminate].
  - rewrite (addPriceHandler_payload schema plan r d price Hroute Hb).
    cbv zeta. unfold write_succeeds.
    destruct (reachable d); cbn [andb].
    + destruct (admits schema (egg_prices d) (new_row d price)) eqn:Ha.
      * split; [split; discriminate|].
        intros price' [= <-]. rewrite Ha. cbn. split; reflexivity.
      * split; [split; discriminate|].
        intros price' [= <-]. rewrite Ha. cbn.
        repeat split. eexists; reflexivity.
    + split; [split; discriminate|].
      intros price' [= <-]. cbn.
      repeat split. eexists; reflexivity.
Qed.

Lemma insert_client_error_iff_malformed_witness :
  let r := post careless_payload in
  let (w, d') := handler plain_schema heap_order AddPrice r seeded in
  (client_error w = true <-> Body r = Malformed) /\
  (forall price, Body r = Payload price ->
     if write_succeeds plain_schema seeded price
     then StatusCode w = StatusOK /\
          egg_prices d' = egg_prices seeded ++ [new_row seeded price]
     else internal_error w = true /\
          (exists e, Written w = Text (StoreError e)) /\
          egg_prices d' = egg_prices seeded).
Proof.
  apply (insert_client_error_iff_malformed plain_schema heap_order
           (post careless_payload) seeded).
  reflexivity.
Defined.

Example insert_careless_payload :
  let (w, d') := addPriceHandler plain_schema heap_order
                   (post careless_payload) seeded in
  w = json_Encode (Price (EggPrice.mk 3 "" "" (-1)%float "" "")) /\
  egg_prices d'
  = [national_2; california_2_5;
     EggPrice.mk 3 "" "" (-1)%float "" "2024-01-16 09:00:00"].
Proof. split; reflexivity. Qed.

Example insert_malformed :
  addPriceHandler plain_schema heap_order
    (mkRequest "POST" "/api/prices" [] Malformed) seeded
  = (http_Error DecodeError StatusBadRequest, seeded).
Proof. reflexivity. Qed.

(** ** The store is append-only *)

Section AppendOnly.
Variable schema : Schema.
Variable plan : Plan.

Lemma db_Query_select {T : Type} (q : Statement T) (d : DB) :
  is_select q = true ->
  tables (snd (db_Query schema plan q d)) = tables d.
Proof.
  unfold db_Query, journal; cbn.
  destruct (reachable d); [|reflexivity].
  destruct q; cbn; intros H; try reflexivity; discriminate.
Qed.

Lemma getPricesHandler_reads (r : Request) (d : DB) :
  tables (snd (getPricesHandler schema plan r d)) = tables d.
Proof.
  unfold getPricesHandler.
  destruct (Atoi _) as [n|]; [|reflexivity].
  unfold bind.
  match goal with
  | |- context [db_Query schema plan ?q d] =>
      pose proof (db_Query_select q d) as Hq;
      destruct (db_Query schema plan q d) as [[rows|e] d']
  end; cbn in *; apply Hq;
    destruct (negb _); reflexivity.
Qed.

Lemma getLocationsHandler_reads (r : Request) (d : DB) :
  tables (snd (getLocationsHandler schema plan r d)) = tables d.
Proof.
  unfold getLocationsHandler, bind.
  pose proof (db_Query_select SelectLocations d eq_refl) as Hq.
  destruct (db_Query schema plan SelectLocations d) as [[rows|e] d'];
    exact Hq.
Qed.

Lemma getComparisonHandler_reads (r : Request) (d : DB) :
  tables (snd (getComparisonHandler schema plan r d)) = tables d.
Proof.
  unfold getComparisonHandler, bind.
  pose proof (db_Query_select SelectComparison d eq_refl) as Hq.
  destruct (db_Query schema plan SelectComparison d) as [[rows|e] d'];
    exact Hq.
Qed.

Lemma addPriceHandler_appends (r : Request) (d : DB) :
  let (w, d') := addPriceHandler schema plan r d in
  (StatusCode w = StatusOK /\
   exists row, egg_prices d' = egg_prices d ++ [row] /\
               locations d' = locations d) \/
  (StatusCode w <> StatusOK /\ tables d' = tables d).
Proof.
  destruct (String.eqb_spec (Method r) "POST") as [Hm|Hm].
  - destruct (Body r) as [|price] eqn:Hb.
    + rewrite (addPriceHandler_malformed schema plan r d Hm Hb).
      right. split; [discriminate|reflexivity].
    + rewrite (addPriceHandler_payload schema plan r d price Hm Hb).
      cbv zeta. destruct (reachable d).
      * destruct (admits schema (egg_prices d) (new_row d price)).
        -- left. split; [reflexivity|]. eexists; split; reflexivity.
        -- right. split; [discriminate|reflexivity].
      * right. split; [discriminate|reflexivity].
  - unfold addPriceHandler.
    destruct (String.eqb_spec (Method r) "POST"); [contradiction|].
    right. split; [discriminate|reflexivity].
Qed.
End AppendOnly.

(** C9: listing prices, listing locations and comparing leave both tables
    as they were; an insert that succeeds adds exactly one observation
    after the existing ones, an insert that fails adds none; and whatever
    the operation, the observations the store held are still there, in
    place and unchanged, and the locations are untouched. *)
Theorem observations_are_append_only
    (schema : Schema) (plan : Plan) (o : Operation) (r : Request) (d : DB) :
  let (w, d') := handler schema plan o r d in
  (o <> AddPrice -> tables d' = tables d) /\
  (o = AddPrice ->
   if StatusCode w =? StatusOK
   then exists row, egg_prices d' = egg_prices d ++ [row]
   else egg_prices d' = egg_prices d) /\
  (exists added, egg_prices d' = egg_prices d ++ added) /\
  locations d' = locations d.
Proof.
  assert (Hread : forall (w : Response) (d' : DB) (o' : Operation),
             o' <> AddPrice -> tables d' = tables d ->
             (o' <> AddPrice -> tables d' = tables d) /\
             (o' = AddPrice ->
              if StatusCode w =? StatusOK
              then exists row, egg_prices d' = egg_prices d ++ [row]
              else egg_prices d' = egg_prices d) /\
             (exists added, egg_prices d' = egg_prices d ++ added) /\
             locations d' = locations d).
  { intros w d' o' Ho Ht. pose proof Ht as Ht'.
    unfold tables in Ht'. injection Ht' as Hp Hl.
    split; [intros _; exact Ht|]. split; [intros; contradiction|].
    split; [|exact Hl]. exists []. rewrite app_nil_r. exact Hp. }
  destruct o; cbn [handler].
  - pose proof (getPricesHandler_reads schema plan r d) as H.
    destruct (getPricesHandler schema plan r d) as [w d'].
    apply Hread; [discriminate|exact H].
  - pose proof (addPriceHandler_appends schema plan r d) as H.
    destruct (addPriceHandler schema plan r d) as [w d'].
    destruct H as [[Hs (row & Hrow & Hl)]|[Hs Ht]].
    + rewrite Hs. split; [congruence|]. split; [|split].
      * intros _. exists row. exact Hrow.
      * exists [row]. exact Hrow.
      * exact Hl.
    + unfold tables in Ht. injection Ht as Hp Hl.
      destruct (Z.eqb_spec (StatusCode w) StatusOK); [contradiction|].
      split; [congruence|]. split; [|split].
      * intros _. exact Hp.
      * exists []. rewrite app_nil_r. exact Hp.
      * exact Hl.
  - pose proof (getLocationsHandler_reads schema plan r d) as H.
    destruct (getLocationsHandler schema plan r d) as [w d'].
    apply Hread; [discriminate|exact H].
  - pose proof (getComparisonHandler_reads schema plan r d) as H.
    destruct (getComparisonHandler schema plan r d) as [w d'].
    apply Hread; [discriminate|exact H].
Qed.

(** Through the router: whatever the request, routed or not, the
    observations and locations the store held are still there. *)
Lemma serve_keeps_rows
    (schema : Schema) (plan : Plan) (r : Request) (d : DB) :
  let d' := snd (serve schema plan r d) in
  (exists added, egg_prices d' = egg_prices d ++ added) /\
  locations d' = locations d.
Proof.
  assert (Hread : forall d', tables d' = tables d ->
             (exists added, egg_prices d' = egg_prices d ++ added) /\
             locations d' = locations d).
  { intros d' Ht. unfold tables in Ht. injection Ht as Hp Hl.
    split; [|exact Hl]. exists []. rewrite app_nil_r. exact Hp. }
  unfold serve. destruct (route r) as [o|]; cbn.
  - unfold bind, ret. destruct o; cbn [handler].
    + pose proof (getPricesHandler_reads schema plan r d) as H.
      destruct (getPricesHandler schema plan r d) as [w d'].
      apply Hread, H.
    + pose proof (addPriceHandler_appends schema plan r d) as H.
      destruct (addPriceHandler schema plan r d) as [w d'].
      destruct H as [[_ (row & Hrow & Hl)]|[_ Ht]].
      * split; [exists [row]; exact Hrow|exact Hl].
      * apply Hread, Ht.
    + pose proof (getLocationsHandler_reads schema plan r d) as H.
      destruct (getLocationsHandler schema plan r d) as [w d'].
      apply Hread, H.
    + pose proof (getComparisonHandler_reads schema plan r d) as H.
      destruct (getComparisonHandler schema plan r d) as [w d'].
      apply Hread, H.
  - split; [exists []; rewrite app_nil_r; reflexivity|reflexivity].
Qed.

(** A request grows the journal of the connection by at most one
    statement. *)
Lemma handlers_send_at_most_one_statement
    (schema : Schema) (plan : Plan) (o : Operation) (r : Request) (d : DB) :
  exists qs, statements (snd (handler schema plan o r d)) = statements d ++ qs
             /\ (List.length qs <= 1)%nat.
Proof.
  destruct o; cbn [handler].
  - unfold getPricesHandler. destruct (Atoi _) as [n|].
    + unfold bind, db_Query, journal; cbn.
      destruct (negb _); destruct (reachable d); cbn;
        try match goal with
          | |- context [select_prices ?s ?l ?k ?rows] =>
              destruct (select_prices s l k rows)
          end; cbn; eexists; split; try reflexivity; cbn; lia.
    + exists []. rewrite app_nil_r. split; [reflexivity|cbn; lia].
  - unfold addPriceHandler. destruct (negb _).
    + exists []. rewrite app_nil_r. split; [reflexivity|cbn; lia].
    + destruct (Body r) as [|price].
      * exists []. rewrite app_nil_r. split; [reflexivity|cbn; lia].
      * unfold bind, db_Query, journal; cbn.
        destruct (reachable d); cbn.
        -- unfold insert_price; cbn. destruct (admits _ _ _); cbn;
             eexists; split; try reflexivity; cbn; lia.
        -- eexists; split; try reflexivity; cbn; lia.
  - unfold getLocationsHandler, bind, db_Query, journal; cbn.
    destruct (reachable d); cbn; eexists; split; try reflexivity; cbn; lia.
  - unfold getComparisonHandler, bind, db_Query, journal; cbn.
    destruct (reachable d); cbn; eexists; split; try reflexivity; cbn; lia.
Qed.

(** ** The comparison query *)

Lemma StronglySorted_map {A B : Type} (f : A -> B) (R : B -> B -> Prop)
    (l : list A) :
  StronglySorted (fun a b => R (f a) (f b)) l -> StronglySorted R (map f l).
Proof.
  induction 1 as [|x l Hs IH Hx]; simpl; constructor.
  - exact IH.
  - apply Forall_map. exact Hx.
Qed.

Lemma StronglySorted_NoDup {A : Type} (R : A -> A -> Prop) (l : list A) :
  (forall a, ~ R a a) -> StronglySorted R l -> NoDup l.
Proof.
  intros Hirr. induction 1 as [|x l Hs IH Hx]; constructor.
  - intros Hin. rewrite Forall_forall in Hx. exact (Hirr x (Hx x Hin)).
  - exact IH.
Qed.

Lemma unique_after_In (prev : string) (l : list EggPrice.t) (p : EggPrice.t) :
  In p (unique_after prev l) -> In p l.
Proof.
  revert prev; induction l as [|q l IH]; intros prev; simpl; [tauto|].
  destruct (String.eqb (EggPrice.Location q) prev); simpl.
  - intros H; right; eapply IH; exact H.
  - intros [H|H]; [left; exact H|right; eapply IH; exact H].
Qed.

Lemma distinct_on_location_In (l : list EggPrice.t) (p : EggPrice.t) :
  In p (distinct_on_location l) -> In p l.
Proof.
  destruct l as [|h l]; simpl; [tauto|].
  intros [H|H]; [left; exact H|right; eapply unique_after_In; exact H].
Qed.

Section Latest.
Variable schema : Schema.

Let loc := EggPrice.Location.
Let date := EggPrice.Date.
Let le_loc (a b : string) : Prop := le (collation schema) a b = true.
Let le_date (a b : string) : Prop := le (date_order schema) a b = true.

Lemma le_refl (o : Ordering) (a : string) : le o a a = true.
Proof. destruct (le_total o a a); assumption. Qed.

Lemma before_irrefl (a : string) : ~ before schema a a.
Proof. intros [_ H]; exact (H eq_refl). Qed.

Lemma before_trans (a b c : string) :
  before schema a b -> before schema b c -> before schema a c.
Proof.
  intros [Hab Nab] [Hbc Nbc]. split.
  - eapply le_trans; eauto.
  - intros ->. apply Nab. apply (le_antisym (collation schema)); assumption.
Qed.

Lemma before_asym (a b : string) :
  before schema a b -> before schema b a -> False.
Proof. intros H1 H2. exact (before_irrefl a (before_trans _ _ _ H1 H2)). Qed.

Lemma row_le_total (a b : EggPrice.t) :
  by_location_date_desc schema a b = true \/
  by_location_date_desc schema b a = true.
Proof.
  unfold by_location_date_desc.
  rewrite (String.eqb_sym (EggPrice.Location b)).
  destruct (String.eqb (EggPrice.Location a) (EggPrice.Location b));
    apply le_total.
Qed.

Lemma row_le_trans (a b c : EggPrice.t) :
  by_location_date_desc schema a b = true ->
  by_location_date_desc schema b c = true ->
  by_location_date_desc schema a c = true.
Proof.
  unfold by_location_date_desc.
  destruct (String.eqb_spec (EggPrice.Location a) (EggPrice.Location b))
    as [Eab|Nab];
  destruct (String.eqb_spec (EggPrice.Location b) (EggPrice.Location c))
    as [Ebc|Nbc];
  destruct (String.eqb_spec (EggPrice.Location a) (EggPrice.Location c))
    as [Eac|Nac]; intros H1 H2; try congruence.
  - eapply le_trans; eauto.
  - exfalso. apply Nab. rewrite <- Eac in H2.
    apply (le_antisym (collation schema)); assumption.
  - eapply le_trans; eauto.
Qed.

Lemma row_le_loc (a b : EggPrice.t) :
  row_le schema a b -> le_loc (loc a) (loc b).
Proof.
  unfold row_le, by_location_date_desc, le_loc, loc.
  destruct (String.eqb_spec (EggPrice.Location a) (EggPrice.Location b))
    as [->|]; [intros _; apply le_refl|tauto].
Qed.

Lemma row_le_date (a b : EggPrice.t) :
  row_le schema a b -> loc a = loc b -> le_date (date b) (date a).
Proof.
  unfold row_le, by_location_date_desc, le_date, loc, date.
  intros H E. rewrite E, String.eqb_refl in H. exact H.
Qed.

(** Every row is at the location of the row before, or has a kept row
    of its location in front of it. *)
Lemma unique_after_first (prev : string) (l : list EggPrice.t) :
  StronglySorted (row_le schema) l ->
  forall q, In q l ->
    loc q = prev \/
    exists p, In p (unique_after prev l) /\ loc p = loc q /\
              row_le schema p q.
Proof.
  intros Hs; revert prev.
  induction Hs as [|h l Hs IH Hh]; intros prev q; simpl; [tauto|].
  rewrite Forall_forall in Hh.
  destruct (String.eqb_spec (EggPrice.Location h) prev) as [E|N].
  - intros [<-|Hq]; [left; exact E|apply IH; exact Hq].
  - intros [<-|Hq]; right.
    + exists h. split; [left; reflexivity|]. split; [reflexivity|].
      destruct (row_le_total h h); assumption.
    + destruct (IH (EggPrice.Location h) q Hq) as [E|(p & Hp & Ep & Hpq)].
      * exists h. split; [left; reflexivity|].
        split; [symmetry; exact E|apply Hh; exact Hq].
      * exists p. split; [right; exact Hp|]. split; assumption.
Qed.

Lemma unique_after_increasing (prev : string) (l : list EggPrice.t) :
  StronglySorted (row_le schema) l ->
  Forall (fun q => le_loc prev (loc q)) l ->
  StronglySorted (before schema) (map loc (unique_after prev l)) /\
  Forall (before schema prev) (map loc (unique_after prev l)).
Proof.
  intros Hs; revert prev.
  induction Hs as [|h l Hs IH Hh]; intros prev Hprev; simpl.
  - split; constructor.
  - inversion Hprev as [|? ? Hph Hpl]; subst.
    destruct (String.eqb_spec (EggPrice.Location h) prev) as [E|N].
    + apply IH. exact Hpl.
    + destruct (IH (EggPrice.Location h)) as [IH1 IH2].
      { eapply Forall_impl; [|exact Hh].
        intros q Hq. apply row_le_loc. exact Hq. }
      assert (Hb : before schema prev (loc h)).
      { split; [exact Hph|]. intros E. apply N. symmetry. exact E. }
      simpl. split.
      * constructor; assumption.
      * constructor; [exact Hb|].
        eapply Forall_impl; [|exact IH2].
        intros k Hk. eapply before_trans; eauto.
Qed.

Lemma distinct_on_location_first (l : list EggPrice.t) :
  StronglySorted (row_le schema) l ->
  forall q, In q l ->
    exists p, In p (distinct_on_location l) /\ loc p = loc q /\
              row_le schema p q.
Proof.
  intros Hs q Hq. destruct l as [|h l]; [contradiction|].
  inversion Hs as [|? ? Hs' Hh]; subst. rewrite Forall_forall in Hh.
  simpl. destruct Hq as [<-|Hq].
  - exists h. split; [left; reflexivity|]. split; [reflexivity|].
    destruct (row_le_total h h); assumption.
  - destruct (unique_after_first (EggPrice.Location h) l Hs' q Hq)
      as [E|(p & Hp & Ep & Hpq)].
    + exists h. split; [left; reflexivity|].
      split; [symmetry; exact E|apply Hh; exact Hq].
    + exists p. split; [right; exact Hp|]. split; assumption.
Qed.

Lemma distinct_on_location_increasing (l : list EggPrice.t) :
  StronglySorted (row_le schema) l ->
  StronglySorted (before schema) (map loc (distinct_on_location l)).
Proof.
  intros Hs. destruct l as [|h l]; simpl; [constructor|].
  inversion Hs as [|? ? Hs' Hh]; subst.
  destruct (unique_after_increasing (EggPrice.Location h) l Hs') as [H1 H2].
  - eapply Forall_impl; [|exact Hh]. intros q Hq. apply row_le_loc, Hq.
  - constructor; assumption.
Qed.
End Latest.

(** Lists keyed by strictly increasing keys. *)
Section Keys.
Context {A : Type} (key : A -> string).

Lemma keyed_unique (l : list A) (a b : A) :
  NoDup (map key l) -> In a l -> In b l -> key a = key b -> a = b.
Proof.
  induction l as [|h l IH]; simpl; [tauto|].
  intros Hnd. inversion Hnd as [|? ? Hh Hl]; subst.
  intros [<-|Ha] [<-|Hb] E.
  - reflexivity.
  - exfalso. apply Hh. rewrite E. apply in_map. exact Hb.
  - exfalso. apply Hh. rewrite <- E. apply in_map. exact Ha.
  - apply IH; assumption.
Qed.

Lemma filter_key_none (l : list A) (k : string) :
  ~ In k (map key l) -> filter (fun x => String.eqb (key x) k) l = [].
Proof.
  induction l as [|h l IH]; simpl; [reflexivity|].
  intros Hk. destruct (String.eqb_spec (key h) k) as [E|N].
  - exfalso. apply Hk. left. exact E.
  - apply IH. intros H. apply Hk. right. exact H.
Qed.

Lemma filter_key_single (l : list A) (a : A) :
  NoDup (map key l) -> In a l ->
  filter (fun x => String.eqb (key x) (key a)) l = [a].
Proof.
  induction l as [|h l IH]; simpl; [tauto|].
  intros Hnd. inversion Hnd as [|? ? Hh Hl]; subst.
  intros [<-|Ha].
  - rewrite String.eqb_refl. f_equal. apply filter_key_none. exact Hh.
  - destruct (String.eqb_spec (key h) (key a)) as [E|N].
    + exfalso. apply Hh. rewrite E. apply in_map. exact Ha.
    + apply IH; assumption.
Qed.

End Keys.

Section Keyed.
Context {A B : Type} (key : A -> string) (f : A -> B).
Variable R : string -> string -> Prop.
Hypothesis R_irrefl : forall a, ~ R a a.
Hypothesis R_asym : forall a b, R a b -> R b a -> False.

Lemma sorted_same_keys (l1 l2 : list A) :
  StronglySorted R (map key l1) ->
  StronglySorted R (map key l2) ->
  (forall k, In k (map key l1) <-> In k (map key l2)) ->
  (forall a b, In a l1 -> In b l2 -> key a = key b -> f a = f b) ->
  map f l1 = map f l2.
Proof.
  revert l2; induction l1 as [|a l1 IH]; intros [|b l2] S1 S2 Hk Hf.
  - reflexivity.
  - exfalso. apply (proj2 (Hk (key b))). left. reflexivity.
  - exfalso. apply (proj1 (Hk (key a))). left. reflexivity.
  - simpl in S1, S2.
    inversion S1 as [|? ? S1' F1]; inversion S2 as [|? ? S2' F2]; subst.
    rewrite Forall_forall in F1, F2.
    assert (E : key a = key b).
    { destruct (proj1 (Hk (key a)) (or_introl eq_refl)) as [E|Ha];
        [symmetry; exact E|].
      destruct (proj2 (Hk (key b)) (or_introl eq_refl)) as [E|Hb];
        [exact E|].
      exfalso. exact (R_asym _ _ (F1 _ Hb) (F2 _ Ha)). }
    simpl. f_equal.
    + apply Hf; [left; reflexivity|left; reflexivity|exact E].
    + apply IH; try assumption.
      * intros k. split; intros H.
        -- destruct (proj1 (Hk k) (or_intror H)) as [E'|H']; [|exact H'].
           exfalso. apply (R_irrefl (key a)).
           rewrite E at 2. rewrite E'. apply F1. exact H.
        -- destruct (proj2 (Hk k) (or_intror H)) as [E'|H']; [|exact H'].
           exfalso. apply (R_irrefl (key b)).
           rewrite <- E at 2. rewrite E'. apply F2. exact H.
      * intros x y Hx Hy. apply Hf; right; assumption.
Qed.
End Keyed.

Lemma list_prod_nil_r {A B : Type} (l : list A) : list_prod l (@nil B) = [].
Proof. induction l as [|a l IH]; simpl; [reflexivity|exact IH]. Qed.

Lemma list_prod_single {A B : Type} (l : list A) (b : B) :
  list_prod l [b] = map (fun a => (a, b)) l.
Proof. induction l as [|a l IH]; simpl; [reflexivity|now rewrite IH]. Qed.

Section ComparisonQuery.
Variable schema : Schema.

Let loc := EggPrice.Location.
Let date := EggPrice.Date.

Lemma order_rows_sorted (rows : list EggPrice.t) :
  StronglySorted (row_le schema)
    (order_by (by_location_date_desc schema) rows).
Proof.
  apply (order_by_sorted (by_location_date_desc schema)).
  - apply row_le_total.
  - apply row_le_trans.
Qed.

Lemma latest_rows_In (rows : list EggPrice.t) (p : EggPrice.t) :
  In p (latest_rows schema rows) -> In p rows.
Proof.
  intros H. apply distinct_on_location_In in H.
  apply (proj1 (order_by_In _ _ _)) in H. exact H.
Qed.

Lemma latest_rows_increasing (rows : list EggPrice.t) :
  StronglySorted (before schema) (map loc (latest_rows schema rows)).
Proof. apply distinct_on_location_increasing, order_rows_sorted. Qed.

Lemma latest_rows_NoDup (rows : list EggPrice.t) :
  NoDup (map loc (latest_rows schema rows)).
Proof.
  eapply StronglySorted_NoDup; [|apply latest_rows_increasing].
  apply before_irrefl.
Qed.

(** The row kept for a location carries the latest date of the
    location. *)
Lemma latest_rows_max (rows : list EggPrice.t) (p q : EggPrice.t) :
  In p (latest_rows schema rows) -> In q rows -> loc q = loc p ->
  le (date_order schema) (date q) (date p) = true.
Proof.
  intros Hp Hq E.
  destruct (distinct_on_location_first schema _ (order_rows_sorted rows) q)
    as (p' & Hp' & E' & Hle).
  { apply (proj2 (order_by_In _ _ _)). exact Hq. }
  assert (p' = p) as ->.
  { apply (keyed_unique loc (latest_rows schema rows));
      [apply latest_rows_NoDup|exact Hp'|exact Hp|].
    unfold loc. rewrite E'. exact E. }
  apply (row_le_date schema p q Hle). symmetry. exact E.
Qed.

Lemma latest_rows_locations (rows : list EggPrice.t) (k : string) :
  In k (map loc (latest_rows schema rows)) <-> In k (map loc rows).
Proof.
  rewrite !in_map_iff. split.
  - intros (p & E & Hp). exists p. split; [exact E|].
    apply latest_rows_In. exact Hp.
  - intros (q & E & Hq).
    destruct (distinct_on_location_first schema _ (order_rows_sorted rows) q)
      as (p & Hp & E' & _).
    { apply (proj2 (order_by_In _ _ _)). exact Hq. }
    exists p. split; [|exact Hp]. unfold loc. rewrite E'. exact E.
Qed.

Lemma latest_prices_locations (rows : list EggPrice.t) :
  map lp_location (latest_prices schema rows)
  = map loc (latest_rows schema rows).
Proof. unfold latest_prices. rewrite map_map. reflexivity. Qed.
End ComparisonQuery.

Section ComparisonRows.
Variable schema : Schema.

Let loc := EggPrice.Location.

Lemma latest_prices_NoDup (rows : list EggPrice.t) :
  NoDup (map lp_location (latest_prices schema rows)).
Proof. rewrite latest_prices_locations. apply latest_rows_NoDup. Qed.

Lemma latest_prices_In (rows : list EggPrice.t) (k : string) :
  In k (map lp_location (latest_prices schema rows)) <->
  exists p, In p rows /\ EggPrice.Location p = k.
Proof.
  rewrite latest_prices_locations, latest_rows_locations, in_map_iff.
  split; intros (p & H1 & H2); exists p; tauto.
Qed.

Lemma national_prices_none (rows : list EggPrice.t) :
  (forall p, In p rows -> EggPrice.Location p <> NATIONAL) ->
  national_prices (latest_prices schema rows) = [].
Proof.
  intros Hno. unfold national_prices.
  rewrite (filter_key_none lp_location); [reflexivity|].
  intros H. apply latest_prices_In in H. destruct H as (p & Hp & E).
  exact (Hno p Hp E).
Qed.

Lemma national_prices_single (rows : list EggPrice.t) :
  (exists p, In p rows /\ EggPrice.Location p = NATIONAL) ->
  exists n, national_prices (latest_prices schema rows) = [n].
Proof.
  intros H. apply latest_prices_In in H. apply in_map_iff in H.
  destruct H as (a & E & Ha).
  exists (lp_price_per_dozen a). unfold national_prices.
  rewrite <- E.
  rewrite (filter_key_single lp_location _ a);
    [reflexivity|apply latest_prices_NoDup|exact Ha].
Qed.

Lemma select_comparison_without_national (rows : list EggPrice.t) :
  (forall p, In p rows -> EggPrice.Location p <> NATIONAL) ->
  select_comparison schema rows = [].
Proof.
  intros Hno. unfold select_comparison.
  rewrite (national_prices_none rows Hno), list_prod_nil_r. reflexivity.
Qed.

Lemma joined_locations (lps : list LatestPrice) (n : float) :
  map cr_location
    (map (fun j => mkComparisonRow (lp_location (fst j))
                     (lp_price_per_dozen (fst j)) (snd j))
       (filter (fun j => negb (String.eqb (lp_location (fst j)) NATIONAL))
          (map (fun a => (a, n)) lps)))
  = filter not_national (map lp_location lps).
Proof.
  induction lps as [|a lps IH]; simpl; [reflexivity|].
  unfold not_national at 1.
  destruct (negb (String.eqb (lp_location a) NATIONAL)); simpl;
    rewrite IH; reflexivity.
Qed.

Lemma select_comparison_locations (rows : list EggPrice.t) :
  (exists p, In p rows /\ EggPrice.Location p = NATIONAL) ->
  Permutation (map cr_location (select_comparison schema rows))
    (filter not_national (map lp_location (latest_prices schema rows))).
Proof.
  intros H. destruct (national_prices_single rows H) as [n Hn].
  unfold select_comparison. rewrite Hn, list_prod_single.
  rewrite <- (joined_locations _ n).
  apply Permutation_map, order_by_perm.
Qed.

Lemma select_comparison_sorted (rows : list EggPrice.t) :
  StronglySorted (fun a b => le (collation schema) a b = true)
    (map cr_location (select_comparison schema rows)).
Proof.
  apply StronglySorted_map. unfold select_comparison.
  apply (order_by_sorted (by_location schema)); unfold by_location.
  - intros a b. apply le_total.
  - intros a b c. apply le_trans.
Qed.

(** The prices of a row of the comparison query are those of the latest
    observation of its location and of the latest NATIONAL
    observation. *)
Lemma select_comparison_latest (rows : list EggPrice.t)
    (row : ComparisonRow) :
  In row (select_comparison schema rows) ->
  exists p n,
    In p rows /\ In n rows /\
    EggPrice.Location p = cr_location row /\
    EggPrice.PricePerDozen p = cr_price_per_dozen row /\
    EggPrice.Location n = NATIONAL /\
    EggPrice.PricePerDozen n = cr_national_price row /\
    (forall q, In q rows -> EggPrice.Location q = EggPrice.Location p ->
               le (date_order schema) (EggPrice.Date q) (EggPrice.Date p)
               = true) /\
    (forall q, In q rows -> EggPrice.Location q = NATIONAL ->
               le (date_order schema) (EggPrice.Date q) (EggPrice.Date n)
               = true).
Proof.
  unfold select_comparison. intros H.
  apply (proj1 (order_by_In _ _ _)) in H.
  apply in_map_iff in H. destruct H as ([lp np] & <- & H).
  apply filter_In in H. destruct H as [H _].
  apply in_prod_iff in H. destruct H as [Hlp Hnp].
  unfold national_prices in Hnp. apply in_map_iff in Hnp.
  destruct Hnp as (lpn & <- & Hlpn). apply filter_In in Hlpn.
  destruct Hlpn as [Hlpn En]. apply String.eqb_eq in En.
  unfold latest_prices in Hlp, Hlpn.
  apply in_map_iff in Hlp. destruct Hlp as (p & <- & Hp).
  apply in_map_iff in Hlpn. destruct Hlpn as (n & <- & Hn).
  cbn in En |- *. exists p, n.
  split; [apply (latest_rows_In schema), Hp|].
  split; [apply (latest_rows_In schema), Hn|].
  repeat (split; [reflexivity || exact En|]).
  split.
  - intros q Hq E. apply (latest_rows_max schema rows p q Hp Hq E).
  - intros q Hq E. apply (latest_rows_max schema rows n q Hn Hq).
    rewrite E. symmetry. exact En.
Qed.

Lemma compare_location (row : ComparisonRow) :
  PriceComparison.Location (compare row) = cr_location row.
Proof.
  unfold compare; cbn.
  destruct (0 <? cr_national_price row)%float; reflexivity.
Qed.

Lemma compared_locations (rows : list ComparisonRow) :
  map PriceComparison.Location (map compare rows) = map cr_location rows.
Proof.
  rewrite map_map. apply map_ext. apply compare_location.
Qed.

Variable plan : Plan.

Lemma getComparisonHandler_reachable (r : Request) (d : DB) :
  reachable d = true ->
  getComparisonHandler schema plan r d
  = (json_Encode
       (Comparisons
          (map compare
             (select_comparison schema (scan_prices plan (egg_prices d))))),
     journal SelectComparison d).
Proof.
  intros Hr. unfold getComparisonHandler, bind, db_Query, ret.
  cbn. rewrite Hr. cbn. rewrite collect_map. reflexivity.
Qed.

Lemma getComparisonHandler_unreachable (r : Request) (d : DB) :
  reachable d = false ->
  getComparisonHandler schema plan r d
  = (http_Error (StoreError ConnectionFailed) StatusInternalServerError,
     journal SelectComparison d).
Proof.
  intros Hr. unfold getComparisonHandler, bind, db_Query, ret.
  cbn. rewrite Hr. reflexivity.
Qed.

Lemma scanned_In (l : list EggPrice.t) (p : EggPrice.t) :
  In p (scan_prices plan l) <-> In p l.
Proof.
  split; apply Permutation_in;
    [|apply Permutation_sym]; apply scan_prices_perm.
Qed.
End ComparisonRows.

(** ** IEEE comparisons with zero *)

Lemma float_le_zero_not_positive (n : float) :
  (n <=? 0)%float = true -> (0 <? n)%float = false.
Proof.
  rewrite leb_spec, ltb_spec.
  change (Prim2SF 0) with (S754_zero false).
  destruct (Prim2SF n) as [[]|[]| |[] m e]; cbn; congruence.
Qed.

(** ** Price comparison *)

(** C1: once the store answers, the comparison answers 200 with one
    record per row of the query, in the order of the rows.  The record of
    a row with local current price P and national price N carries the
    row's location, P and N; its difference is P - N; its percentage is
    (P - N) / N * 100 when N > 0, and is left at zero otherwise, so when
    N <= 0: the record is produced all the same and nothing is answered
    as an error.  The operations are those of binary64. *)
Theorem comparison_difference_and_percentage
    (schema : Schema) (plan : Plan) (r : Request) (d : DB) :
  reachable d = true ->
  let w := fst (getComparisonHandler schema plan r d) in
  let rows := select_comparison schema (scan_prices plan (egg_prices d)) in
  StatusCode w = StatusOK /\
  w = json_Encode (Comparisons (compared w)) /\
  Forall2
    (fun row c =>
       let P := cr_price_per_dozen row in
       let N := cr_national_price row in
       PriceComparison.Location c = cr_location row /\
       PriceComparison.CurrentPrice c = P /\
       PriceComparison.NationalPrice c = N /\
       PriceComparison.Difference c = (P - N)%float /\
       ((0 <? N)%float = true ->
        PriceComparison.Percentage c = ((P - N) / N * 100)%float) /\
       ((N <=? 0)%float = true -> PriceComparison.Percentage c = 0%float) /\
       ((0 <? N)%float = false -> PriceComparison.Percentage c = 0%float))
    rows (compared w).
Proof.
  intros Hr.
  rewrite (getComparisonHandler_reachable schema plan r d Hr). cbn.
  split; [reflexivity|]. split; [reflexivity|].
  induction (select_comparison schema (scan_prices plan (egg_prices d)))
    as [|row rows IH]; cbn; constructor; [|exact IH].
  unfold compare; cbn.
  destruct (0 <? cr_national_price row)%float eqn:Hpos; cbn.
  - repeat (split; [reflexivity|]). split; [|discriminate].
    intros Hle. apply float_le_zero_not_positive in Hle. congruence.
  - repeat (split; [reflexivity|]). split; [discriminate|].
    split; reflexivity.
Qed.

Lemma comparison_difference_and_percentage_witness :
  let w := fst (getComparisonHandler plain_schema heap_order
                  comparison_request seeded) in
  let rows := select_comparison plain_schema
                (scan_prices heap_order (egg_prices seeded)) in
  StatusCode w = StatusOK /\
  w = json_Encode (Comparisons (compared w)) /\
  Forall2
    (fun row c =>
       let P := cr_price_per_dozen row in
       let N := cr_national_price row in
       PriceComparison.Location c = cr_location row /\
       PriceComparison.CurrentPrice c = P /\
       PriceComparison.NationalPrice c = N /\
       PriceComparison.Difference c = (P - N)%float /\
       ((0 <? N)%float = true ->
        PriceComparison.Percentage c = ((P - N) / N * 100)%float) /\
       ((N <=? 0)%float = true -> PriceComparison.Percentage c = 0%float) /\
       ((0 <? N)%float = false -> PriceComparison.Percentage c = 0%float))
    rows (compared w).
Proof.
  apply (comparison_difference_and_percentage plain_schema heap_order
           comparison_request seeded).
  reflexivity.
Defined.

(** A national price of zero, stored through the insert: the comparison
    answers 200 and the record is there, its percentage zero. *)
Example comparison_with_national_price_zero :
  let d := snd (addPriceHandler plain_schema heap_order
                  (post (EggPrice.mk 0 "2024-01-15" "NATIONAL" 0%float
                           "seed" ""))
                  california_only) in
  fst (getComparisonHandler plain_schema heap_order comparison_request d)
  = json_Encode
      (Comparisons
         [PriceComparison.mk "California" 2.5%float 0%float 2.5%float
            0%float]).
Proof. reflexivity. Qed.

(** The scenario of the spec. *)
Example comparison_of_seeded :
  fst (getComparisonHandler plain_schema heap_order comparison_request seeded)
  = json_Encode
      (Comparisons
         [PriceComparison.mk "California" 2.5%float 2%float 0.5%float
            25%float]).
Proof. reflexivity. Qed.

(** A national price of zero: the record is produced, the percentage
    stays zero. *)
Example comparison_national_zero :
  compare (mkComparisonRow "California" 2.5%float 0%float)
  = PriceComparison.mk "California" 2.5%float 0%float 2.5%float 0%float.
Proof. reflexivity. Qed.

(** C3: without an observation for NATIONAL the comparison, once the
    store answers, succeeds with no record, whatever the other
    observations. *)
Theorem comparison_empty_without_national
    (schema : Schema) (plan : Plan) (r : Request) (d : DB) :
  reachable d = true ->
  (forall p, In p (egg_prices d) -> EggPrice.Location p <> NATIONAL) ->
  let w := fst (getComparisonHandler schema plan r d) in
  w = json_Encode (Comparisons []) /\
  StatusCode w = StatusOK /\
  compared w = [].
Proof.
  intros Hr Hno.
  rewrite (getComparisonHandler_reachable schema plan r d Hr). cbn.
  rewrite select_comparison_without_national.
  - repeat split.
  - intros p Hp. apply Hno. apply (scanned_In plan). exact Hp.
Qed.

Lemma comparison_empty_without_national_witness :
  let w := fst (getComparisonHandler plain_schema heap_order
                  comparison_request california_only) in
  w = json_Encode (Comparisons []) /\
  StatusCode w = StatusOK /\
  compared w = [].
Proof.
  apply (comparison_empty_without_national plain_schema heap_order
           comparison_request california_only).
  - reflexivity.
  - intros p [<-|[]]. discriminate.
Defined.

(** With a NATIONAL observation in the store, the locations of the
    comparison are those of the store other than NATIONAL, each once. *)
Lemma comparison_with_national
    (schema : Schema) (plan : Plan) (d : DB) :
  (exists p, In p (egg_prices d) /\ EggPrice.Location p = NATIONAL) ->
  let names :=
    map cr_location
      (select_comparison schema (scan_prices plan (egg_prices d))) in
  NoDup names /\
  (forall k, In k names <->
             k <> NATIONAL /\
             exists p, In p (egg_prices d) /\ EggPrice.Location p = k).
Proof.
  intros Hnat.
  set (rows := scan_prices plan (egg_prices d)).
  assert (Hnat' : exists p, In p rows /\ EggPrice.Location p = NATIONAL).
  { destruct Hnat as (p & Hp & E). exists p. split; [|exact E].
    apply (scanned_In plan). exact Hp. }
  pose proof (select_comparison_locations schema rows Hnat') as Hperm.
  cbv zeta. split.
  - apply (Permutation_NoDup (Permutation_sym Hperm)).
    apply NoDup_filter, latest_prices_NoDup.
  - intros k. split.
    + intros H. apply (Permutation_in _ Hperm) in H.
      apply filter_In in H. destruct H as [H Hk].
      apply latest_prices_In in H. destruct H as (p & Hp & E).
      split.
      * unfold not_national in Hk. apply negb_true_iff in Hk.
        apply String.eqb_neq. exact Hk.
      * exists p. split; [|exact E]. apply (scanned_In plan). exact Hp.
    + intros [Hk (p & Hp & E)].
      apply (Permutation_in _ (Permutation_sym Hperm)).
      apply filter_In. split.
      * apply latest_prices_In. exists p. split; [|exact E].
        apply (scanned_In plan). exact Hp.
      * unfold not_national. apply negb_true_iff.
        apply String.eqb_neq. exact Hk.
Qed.

(** C2, as the code has it: once the store answers, the comparison
    returns at most one record per location, none for NATIONAL, each for
    a location that has an observation, in ascending order of location;
    and when the store holds an observation for NATIONAL, every location
    other than NATIONAL that has an observation has its record. *)
Theorem comparison_one_record_per_location
    (schema : Schema) (plan : Plan) (r : Request) (d : DB) :
  reachable d = true ->
  let w := fst (getComparisonHandler schema plan r d) in
  let names := map PriceComparison.Location (compared w) in
  let observed (k : string) : Prop :=
    exists p, In p (egg_prices d) /\ EggPrice.Location p = k in
  w = json_Encode (Comparisons (compared w)) /\
  NoDup names /\
  ~ In NATIONAL names /\
  StronglySorted (fun a b => le (collation schema) a b = true) names /\
  (forall k, In k names -> k <> NATIONAL /\ observed k) /\
  (observed NATIONAL ->
   forall k, k <> NATIONAL -> observed k -> In k names).
Proof.
  intros Hr.
  rewrite (getComparisonHandler_reachable schema plan r d Hr). cbn.
  rewrite compared_locations.
  split; [reflexivity|].
  destruct (in_dec string_dec NATIONAL (map EggPrice.Location (egg_prices d)))
    as [Hnat|Hnone].
  - apply in_map_iff in Hnat. destruct Hnat as (n & En & Hn).
    assert (Hnat : exists p, In p (egg_prices d) /\
                             EggPrice.Location p = NATIONAL)
      by (exists n; split; assumption).
    destruct (comparison_with_national schema plan d Hnat) as [Hnd Hin].
    split; [exact Hnd|]. split; [|split; [|split]].
    + intros H. apply Hin in H. destruct H as [H _]. exact (H eq_refl).
    + apply select_comparison_sorted.
    + intros k H. apply Hin. exact H.
    + intros _ k Hk Hobs. apply Hin. split; assumption.
  - rewrite select_comparison_without_national.
    + cbn. split; [constructor|]. split; [tauto|]. split; [constructor|].
      split; [intros k []|].
      intros (p & Hp & E). exfalso. apply Hnone.
      apply in_map_iff. exists p. split; assumption.
    + intros p Hp E. apply Hnone. apply in_map_iff. exists p.
      split; [exact E|]. apply (scanned_In plan). exact Hp.
Qed.

Lemma comparison_one_record_per_location_witness :
  let w := fst (getComparisonHandler plain_schema heap_order
                  comparison_request seeded) in
  let names := map PriceComparison.Location (compared w) in
  let observed (k : string) : Prop :=
    exists p, In p (egg_prices seeded) /\ EggPrice.Location p = k in
  w = json_Encode (Comparisons (compared w)) /\
  NoDup names /\
  ~ In NATIONAL names /\
  StronglySorted (fun a b => le (collation plain_schema) a b = true) names /\
  (forall k, In k names -> k <> NATIONAL /\ observed k) /\
  (observed NATIONAL ->
   forall k, k <> NATIONAL -> observed k -> In k names).
Proof.
  apply (comparison_one_record_per_location plain_schema heap_order
           comparison_request seeded).
  reflexivity.
Defined.

(** In the store of the scenario NATIONAL is observed, and California
    gets its record. *)
Example comparison_names_of_seeded :
  map PriceComparison.Location
    (compared (fst (getComparisonHandler plain_schema heap_order
                      comparison_request seeded)))
  = ["California"].
Proof. reflexivity. Qed.

(** C2 as stated fails when the store holds no NATIONAL observation:
    California has an observation and is not NATIONAL, and the comparison
    returns no record for it. *)
Lemma comparison_needs_national :
  let w := fst (getComparisonHandler plain_schema heap_order
                  comparison_request california_only) in
  "California" <> NATIONAL /\
  (exists p, In p (egg_prices california_only) /\
             EggPrice.Location p = "California") /\
  ~ In "California" (map PriceComparison.Location (compared w)).
Proof.
  cbn. split; [discriminate|]. split.
  - exists california_2_5. split; [left; reflexivity|reflexivity].
  - intros [].
Qed.

(** ** The most recent observation and ties *)

Lemma latest_prices_any_order (schema : Schema)
    (table rows1 rows2 : list EggPrice.t) :
  Permutation rows1 table -> Permutation rows2 table ->
  ties_agree_on_price schema table ->
  latest_prices schema rows1 = latest_prices schema rows2.
Proof.
  intros P1 P2 Hties. unfold latest_prices.
  assert (In1 : forall p, In p rows1 <-> In p table).
  { intros p; split; apply Permutation_in;
      [exact P1|apply Permutation_sym; exact P1]. }
  assert (In2 : forall p, In p rows2 <-> In p table).
  { intros p; split; apply Permutation_in;
      [exact P2|apply Permutation_sym; exact P2]. }
  apply (sorted_same_keys EggPrice.Location _ (before schema)).
  - apply before_irrefl.
  - apply before_asym.
  - apply latest_rows_increasing.
  - apply latest_rows_increasing.
  - intros k. rewrite !latest_rows_locations, !in_map_iff.
    split; intros (p & E & Hp); exists p; split; try exact E.
    + apply In2, In1, Hp.
    + apply In1, In2, Hp.
  - intros a b Ha Hb E.
    assert (Ta : In a table) by (apply In1, (latest_rows_In schema), Ha).
    assert (Tb : In b table) by (apply In2, (latest_rows_In schema), Hb).
    assert (Hba : le (date_order schema) (EggPrice.Date b) (EggPrice.Date a)
                  = true).
    { apply (latest_rows_max schema rows1 a b Ha);
        [apply In1; exact Tb|symmetry; exact E]. }
    assert (Hab : le (date_order schema) (EggPrice.Date a) (EggPrice.Date b)
                  = true).
    { apply (latest_rows_max schema rows2 b a Hb);
        [apply In2; exact Ta|exact E]. }
    assert (Ed : EggPrice.Date a = EggPrice.Date b).
    { apply (le_antisym (date_order schema)); assumption. }
    assert (Ep : EggPrice.PricePerDozen a = EggPrice.PricePerDozen b).
    { apply Hties; try assumption.
      intros c Tc Ec.
      apply (latest_rows_max schema rows1 a c Ha);
        [apply In1; exact Tc|exact Ec]. }
    rewrite E, Ed, Ep. reflexivity.
Qed.

Lemma keyed_ties_agree (schema : Schema) (rows : list EggPrice.t) :
  keyed rows -> ties_agree_on_price schema rows.
Proof.
  intros Hk a b Ha Hb El Ed _. rewrite (Hk a b Ha Hb El Ed). reflexivity.
Qed.




(** The two runs of the witness keep different rows of the tie, ids 2
    and 4, and answer the same. *)
Example reported_twice_rows_kept :
  map EggPrice.ID
    (latest_rows plain_schema
       (scan_prices heap_order (egg_prices reported_twice))) = [2; 1] /\
  map EggPrice.ID
    (latest_rows plain_schema
       (scan_prices backwards (egg_prices reported_twice))) = [4; 1] /\
  compared (fst (getComparisonHandler plain_schema backwards
                   comparison_request reported_twice))
  = [PriceComparison.mk "California" 2.5%float 2%float 0.5%float 25%float].
Proof. repeat split. Qed.

(** On a keyed store: the comparison answers the same under every plan,
    and the row kept for a location is the same row. *)
Lemma comparison_deterministic_on_keyed_store
    (schema : Schema) (plan1 plan2 : Plan) (r : Request) (d : DB) :
  keyed (egg_prices d) ->
  latest_rows schema (scan_prices plan1 (egg_prices d))
  = latest_rows schema (scan_prices plan2 (egg_prices d)) /\
  getComparisonHandler schema plan1 r d
  = getComparisonHandler schema plan2 r d.
Proof.
  intros Hk. split.
  - rewrite <- (map_id (latest_rows schema (scan_prices plan1 _))).
    rewrite <- (map_id (latest_rows schema (scan_prices plan2 _))).
    apply (sorted_same_keys EggPrice.Location _ (before schema)).
    + apply before_irrefl.
    + apply before_asym.
    + apply latest_rows_increasing.
    + apply latest_rows_increasing.
    + intros k. rewrite !latest_rows_locations, !in_map_iff.
      split; intros (p & E & Hp); exists p; (split; [exact E|]).
      * apply (scanned_In plan2). apply (proj1 (scanned_In plan1 _ _) Hp).
      * apply (scanned_In plan1). apply (proj1 (scanned_In plan2 _ _) Hp).
    + intros a b Ha Hb E.
      assert (Ta : In a (egg_prices d)).
      { apply (proj1 (scanned_In plan1 _ _)).
        apply (latest_rows_In schema), Ha. }
      assert (Tb : In b (egg_prices d)).
      { apply (proj1 (scanned_In plan2 _ _)).
        apply (latest_rows_In schema), Hb. }
      apply (Hk a b Ta Tb E).
      apply (le_antisym (date_order schema)).
      * apply (latest_rows_max schema _ b a Hb);
          [apply (scanned_In plan2); exact Ta|exact E].
      * apply (latest_rows_max schema _ a b Ha);
          [apply (scanned_In plan1); exact Tb|symmetry; exact E].
  - destruct (reachable d) eqn:Hr.
    + rewrite !getComparisonHandler_reachable by exact Hr.
      assert (Hl : latest_prices schema (scan_prices plan1 (egg_prices d))
                   = latest_prices schema (scan_prices plan2 (egg_prices d))).
      { apply (latest_prices_any_order schema (egg_prices d));
          [apply scan_prices_perm|apply scan_prices_perm|].
        apply keyed_ties_agree, Hk. }
      unfold select_comparison. rewrite Hl. reflexivity.
    + rewrite !getComparisonHandler_unreachable by exact Hr. reflexivity.
Qed.

Lemma history_keyed : keyed (egg_prices history).
Proof.
  intros a b [<-|[<-|[<-|[]]]] [<-|[<-|[<-|[]]]] El Ed;
    try reflexivity; try discriminate El; discriminate Ed.
Qed.

Example comparison_of_history_any_plan :
  getComparisonHandler plain_schema heap_order comparison_request history
  = getComparisonHandler plain_schema backwards comparison_request history.
Proof.
  apply comparison_deterministic_on_keyed_store. apply history_keyed.
Qed.

(** * Further properties of the handlers *)

(** ** The listing returns the most recent rows *)

Lemma Permutation_filter {A : Type} (f : A -> bool) (l l' : list A) :
  Permutation l l' -> Permutation (filter f l) (filter f l').
Proof.
  induction 1 as [|x l l' _ IH|x y l|l l' l'' _ IH1 _ IH2]; simpl.
  - apply perm_nil.
  - destruct (f x); [apply perm_skip|]; exact IH.
  - destruct (f x), (f y); try apply Permutation_refl. apply perm_swap.
  - eapply perm_trans; eassumption.
Qed.

Lemma StronglySorted_app_cross {A : Type} (R : A -> A -> Prop)
    (l1 l2 : list A) :
  StronglySorted R (l1 ++ l2) ->
  forall p q, In p l1 -> In q l2 -> R p q.
Proof.
  induction l1 as [|x l1 IH]; simpl; intros Hs p q Hp Hq; [contradiction|].
  inversion Hs as [|? ? Hs' Hx]; subst.
  destruct Hp as [<-|Hp].
  - rewrite Forall_forall in Hx. apply Hx, in_or_app. right. exact Hq.
  - eapply IH; eassumption.
Qed.

Lemma limit_is_parsed (r : Request) (n : Z) :
  limit_is r n ->
  Atoi (if String.eqb (Get (Query r) "limit") "" then "30"
        else Get (Query r) "limit") = Some n /\ 0 <= n.
Proof.
  intros [[-> ->]|[Hp Hn]].
  - split; [reflexivity|lia].
  - rewrite (limit_given _ _ Hp). split; assumption.
Qed.

Lemma matching_scanned (plan : Plan) (r : Request) (rows : list EggPrice.t) :
  Permutation (matching r (scan_prices plan rows)) (matching r rows).
Proof.
  unfold matching. destruct (listing_filter r).
  - apply Permutation_filter, scan_prices_perm.
  - apply scan_prices_perm.
Qed.

(** The answer of the listing, once the limit is read and the store
    answers. *)
Lemma getPricesHandler_listed
    (schema : Schema) (plan : Plan) (r : Request) (d : DB) (n : Z) :
  reachable d = true -> limit_is r n ->
  fst (getPricesHandler schema plan r d)
  = json_Encode
      (Prices (firstn (Z.to_nat n)
                 (order_by (by_date_desc schema)
                    (matching r (scan_prices plan (egg_prices d)))))).
Proof.
  intros Hr Hl. apply limit_is_parsed in Hl. destruct Hl as [Hp Hn].
  rewrite (getPricesHandler_parsed schema plan r d n Hp). cbn [fst].
  rewrite Hr. unfold select_prices, matching, limit.
  destruct (Z.ltb_spec n 0); [lia|].
  destruct (listing_filter r); reflexivity.
Qed.

(** X1: with the store reachable and limit n, the listing returns the
    min(n, m) most recent of the m observations the request asks for (all
    of them, or those at the location of the filter): the returned rows
    together with the rows left out are the rows asked for, and no row
    left out is more recent than a returned one. *)
Theorem listing_returns_most_recent
    (schema : Schema) (plan : Plan) (r : Request) (d : DB) (n : Z) :
  reachable d = true ->
  limit_is r n ->
  let out := listed (fst (getPricesHandler schema plan r d)) in
  let asked := matching r (egg_prices d) in
  Z.of_nat (List.length out) = Z.min n (Z.of_nat (List.length asked)) /\
  exists older,
    Permutation (out ++ older) asked /\
    forall p q, In p out -> In q older -> date_le schema q p.
Proof.
  intros Hr Hl.
  rewrite (getPricesHandler_listed schema plan r d n Hr Hl). cbn.
  apply limit_is_parsed in Hl. destruct Hl as [_ Hn].
  set (sorted := order_by (by_date_desc schema)
                   (matching r (scan_prices plan (egg_prices d)))).
  assert (Hperm : Permutation sorted (matching r (egg_prices d))).
  { eapply perm_trans; [apply order_by_perm|apply matching_scanned]. }
  split.
  - rewrite length_firstn, <- (Permutation_length Hperm). lia.
  - exists (skipn (Z.to_nat n) sorted). split.
    + rewrite firstn_skipn. exact Hperm.
    + intros p q Hp Hq.
      assert (Hs : StronglySorted (fun a b => by_date_desc schema a b = true)
                     (firstn (Z.to_nat n) sorted
                      ++ skipn (Z.to_nat n) sorted)).
      { rewrite firstn_skipn.
        apply (order_by_sorted (by_date_desc schema)).
        - apply by_date_desc_total.
        - apply by_date_desc_trans. }
      exact (StronglySorted_app_cross _ _ _ Hs p q Hp Hq).
Qed.

Lemma listing_returns_most_recent_witness :
  let r := get "/api/prices" [("limit", "1")] in
  let out := listed (fst (getPricesHandler plain_schema heap_order r seeded)) in
  let asked := matching r (egg_prices seeded) in
  Z.of_nat (List.length out) = Z.min 1 (Z.of_nat (List.length asked)) /\
  exists older,
    Permutation (out ++ older) asked /\
    forall p q, In p out -> In q older -> date_le plain_schema q p.
Proof.
  apply (listing_returns_most_recent plain_schema heap_order
           (get "/api/prices" [("limit", "1")]) seeded 1).
  - reflexivity.
  - right. split; [reflexivity|lia].
Defined.

(** X2: a stored observation is listed.  After an insert that succeeds,
    a listing without filter or with the location of the payload as
    filter, and a limit that covers the rows asked for, returns the rows
    that were asked for before together with the stored row. *)
Theorem insert_then_list
    (schema : Schema) (plan plan' : Plan) (r r' : Request) (d : DB)
    (price : EggPrice.t) (n : Z) :
  Method r = "POST" ->
  Body r = Payload price ->
  write_succeeds schema d price = true ->
  limit_is r' n ->
  (listing_filter r' = None \/
   listing_filter r' = Some (EggPrice.Location price)) ->
  Z.of_nat (List.length (matching r' (egg_prices d))) < n ->
  let d' := snd (addPriceHandler schema plan r d) in
  let out := listed (fst (getPricesHandler schema plan' r' d')) in
  Permutation out (matching r' (egg_prices d) ++ [new_row d price]) /\
  In (new_row d price) out.
Proof.
  intros Hm Hb Hw Hl Hfilter Hn.
  pose proof Hw as Hw'. unfold write_succeeds in Hw'.
  apply andb_true_iff in Hw'. destruct Hw' as [Hr Ha].
  rewrite (addPriceHandler_payload schema plan r d price Hm Hb).
  cbv zeta. rewrite Hr, Ha. cbn [snd].
  set (d' := mkDB _ _ _ _ _ _).
  rewrite (getPricesHandler_listed schema plan' r' d' n eq_refl Hl).
  unfold listed, json_Encode; cbn [Written].
  assert (Hasked : matching r' (egg_prices d ++ [new_row d price])
                   = matching r' (egg_prices d) ++ [new_row d price]).
  { unfold matching. destruct Hfilter as [-> | ->]; [reflexivity|].
    rewrite filter_app. cbn. rewrite String.eqb_refl. reflexivity. }
  set (sorted := order_by (by_date_desc schema)
                   (matching r' (scan_prices plan' (egg_prices d')))).
  assert (Hperm : Permutation sorted
                    (matching r' (egg_prices d) ++ [new_row d price])).
  { rewrite <- Hasked.
    eapply perm_trans; [apply order_by_perm|apply matching_scanned]. }
  assert (Hall : firstn (Z.to_nat n) sorted = sorted).
  { apply firstn_all2. rewrite (Permutation_length Hperm).
    rewrite length_app. cbn. lia. }
  rewrite Hall. split; [exact Hperm|].
  apply (Permutation_in _ (Permutation_sym Hperm)).
  apply in_or_app. right. left. reflexivity.
Qed.

Lemma insert_then_list_witness :
  let r := post california_payload in
  let r' := get "/api/prices" [("location", "California")] in
  let d' := snd (addPriceHandler plain_schema heap_order r seeded) in
  let out := listed (fst (getPricesHandler plain_schema backwards r' d')) in
  Permutation out
    (matching r' (egg_prices seeded) ++ [new_row seeded california_payload]) /\
  In (new_row seeded california_payload) out.
Proof.
  apply (insert_then_list plain_schema heap_order backwards
           (post california_payload)
           (get "/api/prices" [("location", "California")])
           seeded california_payload 30).
  - reflexivity.
  - reflexivity.
  - reflexivity.
  - left. split; reflexivity.
  - right. reflexivity.
  - cbn. lia.
Defined.

(** ** Location listing *)

Lemma getLocationsHandler_answer
    (schema : Schema) (plan : Plan) (r : Request) (d : DB) :
  fst (getLocationsHandler schema plan r d)
  = if reachable d
    then json_Encode
           (Locations (select_locations schema
                         (scan_locations plan (locations d))))
    else http_Error (StoreError ConnectionFailed) StatusInternalServerError.
Proof.
  unfold getLocationsHandler, bind, db_Query, journal, ret; cbn.
  destruct (reachable d); cbn; [rewrite collect_id|]; reflexivity.
Qed.

(** X3: the location listing returns every registered location, each as
    often as the table holds it, in ascending order of name, whatever
    the request. *)
Theorem locations_all_sorted_by_name
    (schema : Schema) (plan : Plan) (r : Request) (d : DB) :
  reachable d = true ->
  exists out,
    fst (getLocationsHandler schema plan r d) = json_Encode (Locations out) /\
    Permutation out (locations d) /\
    StronglySorted
      (fun a b => le (collation schema) (Location.Name a) (Location.Name b)
                  = true)
      out.
Proof.
  intros Hr. rewrite getLocationsHandler_answer, Hr.
  eexists. split; [reflexivity|]. unfold select_locations. split.
  - eapply perm_trans; [apply order_by_perm|apply scan_locations_perm].
  - apply (order_by_sorted (by_name schema)); unfold by_name.
    + intros a b. apply le_total.
    + intros a b c. apply le_trans.
Qed.

Lemma locations_all_sorted_by_name_witness :
  exists out,
    fst (getLocationsHandler plain_schema heap_order
           (get "/api/locations" []) registered)
    = json_Encode (Locations out) /\
    Permutation out (locations registered) /\
    StronglySorted
      (fun a b => le (collation plain_schema) (Location.Name a)
                    (Location.Name b) = true)
      out.
Proof.
  apply (locations_all_sorted_by_name plain_schema heap_order
           (get "/api/locations" []) registered).
  reflexivity.
Defined.

Example locations_of_registered :
  fst (getLocationsHandler plain_schema heap_order
         (get "/api/locations" []) registered)
  = json_Encode
      (Locations [Location.mk 2 "California" "state";
                  Location.mk 1 "NATIONAL" "national"]).
Proof. reflexivity. Qed.

(** What every operation leaves alone: the locations, and whether the
    server can be reached. *)
Lemma handler_frame
    (schema : Schema) (plan : Plan) (o : Operation) (r : Request) (d : DB) :
  let d' := snd (handler schema plan o r d) in
  locations d' = locations d /\ reachable d' = reachable d.
Proof.
  destruct o; cbn [handler].
  - unfold getPricesHandler. destruct (Atoi _) as [n|]; [|split; reflexivity].
    unfold bind, db_Query, journal; cbn.
    destruct (negb _); destruct (reachable d) eqn:Hr; cbn;
      try match goal with
        | |- context [select_prices ?s ?l ?k ?rows] =>
            destruct (select_prices s l k rows)
        end; cbn; split; congruence.
  - unfold addPriceHandler. destruct (negb _); [split; reflexivity|].
    destruct (Body r) as [|price]; [split; reflexivity|].
    unfold bind, db_Query, journal; cbn.
    destruct (reachable d) eqn:Hr; cbn; [|split; congruence].
    unfold insert_price; cbn. destruct (admits _ _ _); cbn; split; congruence.
  - unfold getLocationsHandler, bind, db_Query, journal; cbn.
    destruct (reachable d) eqn:Hr; cbn; split; congruence.
  - unfold getComparisonHandler, bind, db_Query, journal; cbn.
    destruct (reachable d) eqn:Hr; cbn; split; congruence.
Qed.

(** X4: no operation changes what the location listing returns.  In
    particular an insert does not register the location of its payload:
    a price can be stored for a location the listing never shows. *)
Theorem location_listing_is_unaffected
    (schema : Schema) (plan plan' : Plan) (o : Operation)
    (r r' : Request) (d : DB) :
  fst (getLocationsHandler schema plan' r'
         (snd (handler schema plan o r d)))
  = fst (getLocationsHandler schema plan' r' d).
Proof.
  destruct (handler_frame schema plan o r d) as [Hl Hr].
  rewrite !getLocationsHandler_answer, Hl, Hr. reflexivity.
Qed.

Example insert_does_not_register_location :
  let d' := snd (addPriceHandler plain_schema heap_order
                   (post (EggPrice.mk 0 "2024-01-17" "Texas" 3%float "me" ""))
                   registered) in
  map EggPrice.Location (egg_prices d') = ["NATIONAL"; "California"; "Texas"] /\
  fst (getLocationsHandler plain_schema heap_order (get "/api/locations" []) d')
  = json_Encode
      (Locations [Location.mk 2 "California" "state";
                  Location.mk 1 "NATIONAL" "national"]).
Proof. split; reflexivity. Qed.

(** ** Answers *)

(** X5: every answer of a handler is either 200 with the JSON value of
    its operation, or 400, 405 or 500 with a plain-text message; 400 and
    405 come from the listing and the insert only. *)
Theorem answers_are_json_or_error
    (schema : Schema) (plan : Plan) (o : Operation) (r : Request) (d : DB) :
  let w := fst (handler schema plan o r d) in
  (StatusCode w = StatusOK /\
   ContentType w = "application/json" /\
   match o, Written w with
   | ListPrices, Encoded (Prices _) => True
   | AddPrice, Encoded (Price _) => True
   | ListLocations, Encoded (Locations _) => True
   | Compare, Encoded (Comparisons _) => True
   | _, _ => False
   end) \/
  (ContentType w = "text/plain; charset=utf-8" /\
   (exists m, Written w = Text m) /\
   (StatusCode w = StatusInternalServerError \/
    StatusCode w = StatusBadRequest /\ (o = ListPrices \/ o = AddPrice) \/
    StatusCode w = StatusMethodNotAllowed /\ o = AddPrice)).
Proof.
  destruct o; cbn [handler].
  - unfold getPricesHandler. destruct (Atoi _) as [n|].
    + unfold bind, db_Query, journal; cbn.
      destruct (negb _); destruct (reachable d); cbn;
        try match goal with
          | |- context [select_prices ?s ?l ?k ?rows] =>
              destruct (select_prices s l k rows)
          end; cbn;
        first [left; repeat split; fail
              |right; split; [reflexivity|]; split;
               [eexists; reflexivity|left; reflexivity]].
    + cbn. right. split; [reflexivity|]. split; [eexists; reflexivity|].
      right. left. split; [reflexivity|left; reflexivity].
  - unfold addPriceHandler. destruct (negb _).
    + cbn. right. split; [reflexivity|]. split; [eexists; reflexivity|].
      right. right. split; reflexivity.
    + destruct (Body r) as [|price].
      * cbn. right. split; [reflexivity|]. split; [eexists; reflexivity|].
        right. left. split; [reflexivity|right; reflexivity].
      * unfold bind, db_Query, journal; cbn.
        destruct (reachable d); cbn.
        -- unfold insert_price; cbn. destruct (admits _ _ _); cbn.
           ++ left. repeat split.
           ++ right. split; [reflexivity|]. split; [eexists; reflexivity|].
              left. reflexivity.
        -- right. split; [reflexivity|]. split; [eexists; reflexivity|].
           left. reflexivity.
  - rewrite getLocationsHandler_answer. destruct (reachable d); cbn.
    + left. repeat split.
    + right. split; [reflexivity|]. split; [eexists; reflexivity|].
      left. reflexivity.
  - destruct (reachable d) eqn:Hr.
    + rewrite (getComparisonHandler_reachable schema plan r d Hr). cbn.
      left. repeat split.
    + rewrite (getComparisonHandler_unreachable schema plan r d Hr). cbn.
      right. split; [reflexivity|]. split; [eexists; reflexivity|].
      left. reflexivity.
Qed.

(** X6: when the server cannot be reached no operation answers 200 or
    returns a record, and the tables are as they were; an operation that
    gets as far as the store answers 500 with the store's error. *)
Theorem unreachable_store_is_an_error
    (schema : Schema) (plan : Plan) (o : Operation) (r : Request) (d : DB) :
  reachable d = false ->
  let (w, d') := handler schema plan o r d in
  StatusCode w <> StatusOK /\
  listed w = [] /\
  compared w = [] /\
  tables d' = tables d /\
  (statements d' <> statements d ->
   w = http_Error (StoreError ConnectionFailed) StatusInternalServerError).
Proof.
  intros Hr. destruct o; cbn [handler].
  - unfold getPricesHandler. destruct (Atoi _) as [n|].
    + unfold bind, db_Query, journal; cbn. rewrite Hr.
      destruct (negb _); cbn; repeat split; discriminate.
    + cbn. repeat split; try discriminate. intros H; contradiction.
  - unfold addPriceHandler. destruct (negb _).
    + cbn. repeat split; try discriminate. intros H; contradiction.
    + destruct (Body r) as [|price].
      * cbn. repeat split; try discriminate. intros H; contradiction.
      * unfold bind, db_Query, journal; cbn. rewrite Hr. cbn.
        repeat split; discriminate.
  - unfold getLocationsHandler, bind, db_Query, journal; cbn. rewrite Hr.
    cbn. repeat split; discriminate.
  - unfold getComparisonHandler, bind, db_Query, journal; cbn. rewrite Hr.
    cbn. repeat split; discriminate.
Qed.

Lemma unreachable_store_is_an_error_witness :
  let (w, d') := handler plain_schema heap_order Compare comparison_request
                   unreachable in
  StatusCode w <> StatusOK /\
  listed w = [] /\
  compared w = [] /\
  tables d' = tables unreachable /\
  (statements d' <> statements unreachable ->
   w = http_Error (StoreError ConnectionFailed) StatusInternalServerError).
Proof.
  apply (unreachable_store_is_an_error plain_schema heap_order Compare
           comparison_request unreachable).
  reflexivity.
Defined.

(** ** One statement per request *)

(** X7: a request makes its handler send at most one statement.  The
    three reading operations send nothing but a SELECT, and an operation
    that sends no statement at all has answered a client error. *)
Theorem one_statement_per_request
    (schema : Schema) (plan : Plan) (o : Operation) (r : Request) (d : DB) :
  let (w, d') := handler schema plan o r d in
  exists qs,
    statements d' = statements d ++ qs /\
    (List.length qs <= 1)%nat /\
    (o <> AddPrice -> forallb sent_is_select qs = true) /\
    (qs = [] -> client_error w = true).
Proof.
  destruct o; cbn [handler].
  - unfold getPricesHandler. destruct (Atoi _) as [n|].
    + unfold bind, db_Query, journal; cbn.
      destruct (negb _); destruct (reachable d); cbn;
        try match goal with
          | |- context [select_prices ?s ?l ?k ?rows] =>
              destruct (select_prices s l k rows)
          end; cbn; eexists; (split; [reflexivity|]);
        (split; [cbn; lia|]); (split; [reflexivity|discriminate]).
    + exists []. rewrite app_nil_r. cbn. repeat split. lia.
  - unfold addPriceHandler. destruct (negb _).
    + exists []. rewrite app_nil_r. cbn. repeat split. lia.
    + destruct (Body r) as [|price].
      * exists []. rewrite app_nil_r. cbn. repeat split. lia.
      * unfold bind, db_Query, journal; cbn.
        destruct (reachable d); cbn.
        -- unfold insert_price; cbn. destruct (admits _ _ _); cbn;
             eexists; (split; [reflexivity|]); (split; [cbn; lia|]);
             (split; [intros H; contradiction|discriminate]).
        -- eexists; (split; [reflexivity|]); (split; [cbn; lia|]);
             (split; [intros H; contradiction|discriminate]).
  - unfold getLocationsHandler, bind, db_Query, journal; cbn.
    destruct (reachable d); cbn; eexists; (split; [reflexivity|]);
      (split; [cbn; lia|]); (split; [reflexivity|discriminate]).
  - unfold getComparisonHandler, bind, db_Query, journal; cbn.
    destruct (reachable d); cbn; eexists; (split; [reflexivity|]);
      (split; [cbn; lia|]); (split; [reflexivity|discriminate]).
Qed.

(** ** The routes of main *)

Lemma route_cases (r : Request) (o : Operation) :
  route r = Some o ->
  (o = AddPrice /\ Method r = "POST" /\ Path r = "/api/prices") \/
  (o <> AddPrice /\ Method r = "GET").
Proof.
  unfold route.
  destruct (String.eqb_spec (Path r) "/api/prices") as [Hp|_].
  - destruct (String.eqb_spec (Method r) "GET") as [Hg|_].
    + intros [= <-]. right. split; [discriminate|exact Hg].
    + destruct (String.eqb_spec (Method r) "POST") as [Hm|_];
        [|discriminate].
      intros [= <-]. left. repeat split; assumption.
  - destruct (String.eqb (Path r) "/api/locations").
    + destruct (String.eqb_spec (Method r) "GET") as [Hg|_];
        [|discriminate].
      intros [= <-]. right. split; [discriminate|exact Hg].
    + destruct (String.eqb (Path r) "/api/comparison"); [|discriminate].
      destruct (String.eqb_spec (Method r) "GET") as [Hg|_];
        [|discriminate].
      intros [= <-]. right. split; [discriminate|exact Hg].
Qed.

Lemma reading_handler_tables
    (schema : Schema) (plan : Plan) (o : Operation) (r : Request) (d : DB) :
  o <> AddPrice -> tables (snd (handler schema plan o r d)) = tables d.
Proof.
  destruct o; cbn [handler]; intros Ho.
  - apply getPricesHandler_reads.
  - contradiction.
  - apply getLocationsHandler_reads.
  - apply getComparisonHandler_reads.
Qed.

(** X8: through the router the tables change only on a POST to
    /api/prices whose body decodes: every other request, GET requests
    and requests of methods without a route among them, leaves
    both tables as they were. *)
Theorem only_post_prices_writes
    (schema : Schema) (plan : Plan) (r : Request) (d : DB) :
  tables (snd (serve schema plan r d)) <> tables d ->
  Method r = "POST" /\ Path r = "/api/prices" /\
  exists price, Body r = Payload price.
Proof.
  unfold serve. destruct (route r) as [o|] eqn:Hroute; cbn.
  - unfold bind, ret.
    destruct (handler schema plan o r d) as [w d'] eqn:Hh. cbn.
    destruct (route_cases r o Hroute) as [(-> & Hm & Hp)|[Ho _]].
    + intros Hchanged. split; [exact Hm|]. split; [exact Hp|].
      destruct (Body r) as [|price] eqn:Hb; [|exists price; reflexivity].
      exfalso. apply Hchanged. cbn [handler] in Hh.
      rewrite (addPriceHandler_malformed schema plan r d Hm Hb) in Hh.
      injection Hh as _ <-. reflexivity.
    + intros Hchanged. exfalso. apply Hchanged.
      pose proof (reading_handler_tables schema plan o r d Ho) as H.
      rewrite Hh in H. exact H.
  - intros H. contradiction.
Qed.

Lemma only_post_prices_writes_witness :
  Method (post california_payload) = "POST" /\
  Path (post california_payload) = "/api/prices" /\
  exists price, Body (post california_payload) = Payload price.
Proof.
  apply (only_post_prices_writes plain_schema heap_order
           (post california_payload) seeded).
  cbn. intros H.
  apply (f_equal (fun t => List.length (fst t))) in H. discriminate H.
Defined.

Lemma answers_shape_status
    (schema : Schema) (plan : Plan) (o : Operation) (r : Request) (d : DB) :
  let w := fst (handler schema plan o r d) in
  StatusCode w = StatusOK \/
  StatusCode w = StatusInternalServerError \/
  StatusCode w = StatusBadRequest \/
  (StatusCode w = StatusMethodNotAllowed /\ o = AddPrice).
Proof.
  destruct o; cbn [handler].
  - unfold getPricesHandler. destruct (Atoi _) as [n|]; [|cbn; tauto].
    unfold bind, db_Query, journal; cbn.
    destruct (negb _); destruct (reachable d); cbn;
      try match goal with
        | |- context [select_prices ?s ?l ?k ?rows] =>
            destruct (select_prices s l k rows)
        end; cbn; tauto.
  - unfold addPriceHandler. destruct (negb _); [cbn; tauto|].
    destruct (Body r) as [|price]; [cbn; tauto|].
    unfold bind, db_Query, journal; cbn.
    destruct (reachable d); cbn; [|tauto].
    unfold insert_price; cbn. destruct (admits _ _ _); cbn; tauto.
  - rewrite getLocationsHandler_answer. destruct (reachable d); cbn; tauto.
  - unfold getComparisonHandler, bind, db_Query, journal; cbn.
    destruct (reachable d); cbn; tauto.
Qed.

(** X9: the method check of the insert handler.  Called with another
    method than POST it answers 405 without reading the body or sending
    a statement; a request the router hands to a handler is never
    answered 405. *)
Theorem method_not_allowed_only_off_route
    (schema : Schema) (plan : Plan) (r : Request) (d : DB) :
  (Method r <> "POST" ->
   addPriceHandler schema plan r d
   = (http_Error (Literal "Method not allowed") StatusMethodNotAllowed, d)) /\
  (forall o, route r = Some o ->
     StatusCode (fst (handler schema plan o r d)) <> StatusMethodNotAllowed).
Proof.
  split.
  - intros Hm. unfold addPriceHandler.
    destruct (String.eqb_spec (Method r) "POST"); [contradiction|reflexivity].
  - intros o Hroute.
    pose proof (answers_shape_status schema plan o r d) as Hshape.
    destruct (route_cases r o Hroute) as [(-> & Hm & _)|[Ho _]].
    + cbn [handler]. destruct (Body r) as [|price] eqn:Hb.
      * rewrite (addPriceHandler_malformed schema plan r d Hm Hb).
        discriminate.
      * rewrite (addPriceHandler_payload schema plan r d price Hm Hb).
        cbv zeta. destruct (reachable d); [|discriminate].
        destruct (admits _ _ _); discriminate.
    + destruct Hshape as [H|[H|[H|[H Ha]]]]; try (rewrite H; discriminate).
      contradiction.
Qed.

(** ** What an insert takes from its payload *)

(** X10: the id and created_at of a payload never reach the store.  Two
    payloads with the same date, location, price and source send the
    same statement and leave the same store; the answers carry the same
    status and, when 200, the same generated id. *)
Theorem insert_ignores_id_and_created_at
    (schema : Schema) (plan : Plan) (r1 r2 : Request) (d : DB)
    (p1 p2 : EggPrice.t) :
  Method r1 = "POST" -> Method r2 = "POST" ->
  Body r1 = Payload p1 -> Body r2 = Payload p2 ->
  EggPrice.Date p1 = EggPrice.Date p2 ->
  EggPrice.Location p1 = EggPrice.Location p2 ->
  EggPrice.PricePerDozen p1 = EggPrice.PricePerDozen p2 ->
  EggPrice.Source p1 = EggPrice.Source p2 ->
  let (w1, d1) := addPriceHandler schema plan r1 d in
  let (w2, d2) := addPriceHandler schema plan r2 d in
  d1 = d2 /\
  StatusCode w1 = StatusCode w2 /\
  (forall q1 q2, Written w1 = Encoded (Price q1) ->
                 Written w2 = Encoded (Price q2) ->
                 EggPrice.ID q1 = EggPrice.ID q2).
Proof.
  intros Hm1 Hm2 Hb1 Hb2 Ed El Ep Es.
  rewrite (addPriceHandler_payload schema plan r1 d p1 Hm1 Hb1).
  rewrite (addPriceHandler_payload schema plan r2 d p2 Hm2 Hb2).
  assert (Hrow : new_row d p1 = new_row d p2).
  { unfold new_row. rewrite Ed, El, Ep, Es. reflexivity. }
  cbv zeta. rewrite Hrow, Ed, El, Ep, Es.
  destruct (reachable d).
  - destruct (admits schema (egg_prices d) (new_row d p2)).
    + split; [reflexivity|]. split; [reflexivity|].
      cbn. intros q1 q2 [= <-] [= <-]. reflexivity.
    + split; [reflexivity|]. split; [reflexivity|]. cbn. discriminate.
  - split; [reflexivity|]. split; [reflexivity|]. cbn. discriminate.
Qed.

Lemma insert_ignores_id_and_created_at_witness :
  let (w1, d1) := addPriceHandler plain_schema heap_order
                    (post california_payload) seeded in
  let (w2, d2) := addPriceHandler plain_schema heap_order
                    (post forged_payload) seeded in
  d1 = d2 /\
  StatusCode w1 = StatusCode w2 /\
  (forall q1 q2, Written w1 = Encoded (Price q1) ->
                 Written w2 = Encoded (Price q2) ->
                 EggPrice.ID q1 = EggPrice.ID q2).
Proof.
  apply (insert_ignores_id_and_created_at plain_schema heap_order
           (post california_payload) (post forged_payload) seeded
           california_payload forged_payload); reflexivity.
Defined.

(** ** The prices of a comparison record *)

Lemma compare_prices (row : ComparisonRow) :
  PriceComparison.CurrentPrice (compare row) = cr_price_per_dozen row /\
  PriceComparison.NationalPrice (compare row) = cr_national_price row.
Proof.
  unfold compare; cbn.
  destruct (0 <? cr_national_price row)%float; split; reflexivity.
Qed.

Lemma compared_rows
    (schema : Schema) (plan : Plan) (r : Request) (d : DB)
    (c : PriceComparison.t) :
  In c (compared (fst (getComparisonHandler schema plan r d))) ->
  reachable d = true /\
  exists row,
    In row (select_comparison schema (scan_prices plan (egg_prices d))) /\
    c = compare row.
Proof.
  destruct (reachable d) eqn:Hr.
  - rewrite (getComparisonHandler_reachable schema plan r d Hr). cbn.
    intros Hc. apply in_map_iff in Hc. destruct Hc as (row & <- & Hrow).
    split; [reflexivity|]. exists row. split; [exact Hrow|reflexivity].
  - rewrite (getComparisonHandler_unreachable schema plan r d Hr).
    intros [].
Qed.

(** X11: the prices of a comparison record are those of stored
    observations: the current price is the price of an observation of the
    record's location that no observation of that location is more recent
    than, and the national price is the price of such an observation of
    NATIONAL. *)
Theorem comparison_prices_are_latest
    (schema : Schema) (plan : Plan) (r : Request) (d : DB)
    (c : PriceComparison.t) :
  In c (compared (fst (getComparisonHandler schema plan r d))) ->
  exists p n,
    In p (egg_prices d) /\ In n (egg_prices d) /\
    EggPrice.Location p = PriceComparison.Location c /\
    EggPrice.PricePerDozen p = PriceComparison.CurrentPrice c /\
    EggPrice.Location n = NATIONAL /\
    EggPrice.PricePerDozen n = PriceComparison.NationalPrice c /\
    (forall q, In q (egg_prices d) ->
               EggPrice.Location q = EggPrice.Location p ->
               date_le schema q p) /\
    (forall q, In q (egg_prices d) -> EggPrice.Location q = NATIONAL ->
               date_le schema q n).
Proof.
  intros Hc. apply compared_rows in Hc.
  destruct Hc as (_ & row & Hrow & ->).
  apply select_comparison_latest in Hrow.
  destruct Hrow as (p & n & Hp & Hn & Lp & Pp & Ln & Pn & Mp & Mn).
  destruct (compare_prices row) as [Ec En].
  exists p, n. rewrite compare_location, Ec, En.
  split; [apply (scanned_In plan), Hp|].
  split; [apply (scanned_In plan), Hn|].
  repeat (split; [assumption|]). split.
  - intros q Hq E. apply Mp; [apply (scanned_In plan), Hq|exact E].
  - intros q Hq E. apply Mn; [apply (scanned_In plan), Hq|exact E].
Qed.

Lemma comparison_prices_are_latest_witness :
  let c := PriceComparison.mk "California" 2.5%float 2%float 0.5%float
             25%float in
  exists p n,
    In p (egg_prices seeded) /\ In n (egg_prices seeded) /\
    EggPrice.Location p = PriceComparison.Location c /\
    EggPrice.PricePerDozen p = PriceComparison.CurrentPrice c /\
    EggPrice.Location n = NATIONAL /\
    EggPrice.PricePerDozen n = PriceComparison.NationalPrice c /\
    (forall q, In q (egg_prices seeded) ->
               EggPrice.Location q = EggPrice.Location p ->
               date_le plain_schema q p) /\
    (forall q, In q (egg_prices seeded) -> EggPrice.Location q = NATIONAL ->
               date_le plain_schema q n).
Proof.
  apply (comparison_prices_are_latest plain_schema heap_order
           comparison_request seeded).
  left. reflexivity.
Defined.

Lemma national_prices_agree (schema : Schema) (rows : list EggPrice.t)
    (x y : float) :
  In x (national_prices (latest_prices schema rows)) ->
  In y (national_prices (latest_prices schema rows)) ->
  x = y.
Proof.
  unfold national_prices. rewrite !in_map_iff.
  intros (a & <- & Ha) (b & <- & Hb).
  apply filter_In in Ha. apply filter_In in Hb.
  destruct Ha as [Ha Ea]. destruct Hb as [Hb Eb].
  apply String.eqb_eq in Ea. apply String.eqb_eq in Eb.
  f_equal.
  apply (keyed_unique lp_location (latest_prices schema rows));
    [apply latest_prices_NoDup|exact Ha|exact Hb|congruence].
Qed.

Lemma select_comparison_national (schema : Schema) (rows : list EggPrice.t)
    (row : ComparisonRow) :
  In row (select_comparison schema rows) ->
  In (cr_national_price row) (national_prices (latest_prices schema rows)).
Proof.
  unfold select_comparison. intros H.
  apply (proj1 (order_by_In _ _ _)) in H.
  apply in_map_iff in H. destruct H as ([lp np] & <- & H).
  apply filter_In in H. destruct H as [H _].
  apply in_prod_iff in H. destruct H as [_ Hnp]. exact Hnp.
Qed.

(** X12: all records of one comparison carry the same national price. *)
Theorem comparison_one_national_price
    (schema : Schema) (plan : Plan) (r : Request) (d : DB)
    (c1 c2 : PriceComparison.t) :
  let out := compared (fst (getComparisonHandler schema plan r d)) in
  In c1 out -> In c2 out ->
  PriceComparison.NationalPrice c1 = PriceComparison.NationalPrice c2.
Proof.
  intros out H1 H2. apply compared_rows in H1. apply compared_rows in H2.
  destruct H1 as (_ & row1 & Hrow1 & ->).
  destruct H2 as (_ & row2 & Hrow2 & ->).
  destruct (compare_prices row1) as [_ ->].
  destruct (compare_prices row2) as [_ ->].
  eapply national_prices_agree; apply select_comparison_national; eassumption.
Qed.

Lemma comparison_one_national_price_witness :
  PriceComparison.NationalPrice
    (PriceComparison.mk "California" 2.5%float 2%float 0.5%float 25%float)
  = PriceComparison.NationalPrice
      (PriceComparison.mk "Texas" 3%float 2%float 1%float 50%float).
Proof.
  apply (comparison_one_national_price plain_schema heap_order
           comparison_request three_locations).
  - left. reflexivity.
  - right. left. reflexivity.
Defined.

(** ** An insert shows in the comparison *)

(** X13: with a NATIONAL observation in the store, an insert that
    succeeds for another location, at a date later than every
    observation of that location, makes the next comparison report the
    inserted price as that location's current price. *)
Theorem insert_then_compare
    (schema : Schema) (plan plan' : Plan) (r r' : Request) (d : DB)
    (price : EggPrice.t) :
  Method r = "POST" ->
  Body r = Payload price ->
  write_succeeds schema d price = true ->
  EggPrice.Location price <> NATIONAL ->
  (exists n, In n (egg_prices d) /\ EggPrice.Location n = NATIONAL) ->
  (forall q, In q (egg_prices d) ->
             EggPrice.Location q = EggPrice.Location price ->
             date_le schema q price /\
             EggPrice.Date q <> EggPrice.Date price) ->
  let d' := snd (addPriceHandler schema plan r d) in
  let out := compared (fst (getComparisonHandler schema plan' r' d')) in
  exists c,
    In c out /\
    PriceComparison.Location c = EggPrice.Location price /\
    PriceComparison.CurrentPrice c = EggPrice.PricePerDozen price /\
    forall c', In c' out ->
               PriceComparison.Location c' = EggPrice.Location price ->
               PriceComparison.CurrentPrice c' = EggPrice.PricePerDozen price.
Proof.
  intros Hm Hb Hw Hloc (nat & Hnat & Enat) Hlater.
  pose proof Hw as Hw'. unfold write_succeeds in Hw'.
  apply andb_true_iff in Hw'. destruct Hw' as [Hr Ha].
  rewrite (addPriceHandler_payload schema plan r d price Hm Hb).
  cbv zeta. rewrite Hr, Ha. cbn [snd].
  set (d' := mkDB _ _ _ _ _ _).
  assert (Htable : egg_prices d' = egg_prices d ++ [new_row d price])
    by reflexivity.
  rewrite (getComparisonHandler_reachable schema plan' r' d' eq_refl).
  unfold compared, json_Encode; cbn [fst Written].
  set (rows := select_comparison schema (scan_prices plan' (egg_prices d'))).
  assert (Hnat' : exists p, In p (egg_prices d') /\
                            EggPrice.Location p = NATIONAL).
  { exists nat. split; [|exact Enat].
    rewrite Htable. apply in_or_app. left. exact Hnat. }
  destruct (comparison_with_national schema plan' d' Hnat') as [_ Hin].
  fold rows in Hin.
  assert (Hprice : forall row, In row rows ->
             cr_location row = EggPrice.Location price ->
             cr_price_per_dozen row = EggPrice.PricePerDozen price).
  { intros row Hrow Erow.
    apply select_comparison_latest in Hrow.
    destruct Hrow as (p & _ & Hp & _ & Lp & Pp & _ & _ & Mp & _).
    rewrite <- Pp.
    assert (Hnew : In (new_row d price) (scan_prices plan' (egg_prices d'))).
    { apply (scanned_In plan'). rewrite Htable.
      apply in_or_app. right. left. reflexivity. }
    assert (Hle : le (date_order schema) (EggPrice.Date price)
                    (EggPrice.Date p) = true).
    { apply (Mp (new_row d price) Hnew). cbn. congruence. }
    apply (proj1 (scanned_In plan' _ _)) in Hp. rewrite Htable in Hp.
    apply in_app_or in Hp. destruct Hp as [Hold|[<-|[]]]; [|reflexivity].
    exfalso. destruct (Hlater p Hold) as [Hpl Hne]; [congruence|].
    apply Hne. apply (le_antisym (date_order schema)); assumption. }
  assert (Hthere : In (EggPrice.Location price) (map cr_location rows)).
  { apply Hin. split; [exact Hloc|].
    exists (new_row d price). split; [|reflexivity].
    rewrite Htable. apply in_or_app. right. left. reflexivity. }
  apply in_map_iff in Hthere. destruct Hthere as (row & Erow & Hrow).
  exists (compare row). rewrite compare_location.
  destruct (compare_prices row) as [-> _].
  split; [apply in_map; exact Hrow|]. split; [exact Erow|].
  split; [apply Hprice; assumption|].
  intros c' Hc' Ec'. apply in_map_iff in Hc'.
  destruct Hc' as (row' & <- & Hrow').
  rewrite compare_location in Ec'.
  destruct (compare_prices row') as [-> _].
  apply Hprice; assumption.
Qed.

Lemma insert_then_compare_witness :
  let d' := snd (addPriceHandler plain_schema heap_order
                   (post california_later) seeded) in
  let out := compared (fst (getComparisonHandler plain_schema backwards
                              comparison_request d')) in
  exists c,
    In c out /\
    PriceComparison.Location c = EggPrice.Location california_later /\
    PriceComparison.CurrentPrice c
    = EggPrice.PricePerDozen california_later /\
    forall c', In c' out ->
               PriceComparison.Location c'
               = EggPrice.Location california_later ->
               PriceComparison.CurrentPrice c'
               = EggPrice.PricePerDozen california_later.
Proof.
  apply (insert_then_compare plain_schema heap_order backwards
           (post california_later) comparison_request seeded
           california_later).
  - reflexivity.
  - reflexivity.
  - reflexivity.
  - discriminate.
  - exists national_2. split; [left; reflexivity|reflexivity].
  - intros q [<-|[<-|[]]] E.
    + discriminate E.
    + split; [reflexivity|discriminate].
Defined.

Example compare_after_later_insert :
  compared
    (fst (getComparisonHandler plain_schema backwards comparison_request
            (snd (addPriceHandler plain_schema heap_order
                    (post california_later) seeded))))
  = [PriceComparison.mk "California" 4%float 2%float 2%float 100%float].
Proof. reflexivity. Qed.

(** ** Reading operations are safe *)

Lemma answer_ignores_journal
    (schema : Schema) (plan : Plan) (o : Operation) (r : Request) (d : DB)
    (js : list Sent) :
  fst (handler schema plan o r (with_statements d js))
  = fst (handler schema plan o r d).
Proof.
  destruct o; cbn [handler].
  - unfold getPricesHandler. destruct (Atoi _) as [n|]; [|reflexivity].
    unfold bind, db_Query, journal, with_statements; cbn.
    destruct (negb _); destruct (reachable d); cbn;
      try match goal with
        | |- context [select_prices ?s ?l ?k ?rows] =>
            destruct (select_prices s l k rows)
        end; reflexivity.
  - unfold addPriceHandler. destruct (negb _); [reflexivity|].
    destruct (Body r) as [|price]; [reflexivity|].
    unfold bind, db_Query, journal, with_statements; cbn.
    destruct (reachable d); cbn; [|reflexivity].
    unfold insert_price; cbn. destruct (admits _ _ _); reflexivity.
  - rewrite !getLocationsHandler_answer. reflexivity.
  - unfold getComparisonHandler, bind, db_Query, journal, with_statements;
      cbn.
    destruct (reachable d); reflexivity.
Qed.

Lemma reading_handler_journals
    (schema : Schema) (plan : Plan) (o : Operation) (r : Request) (d : DB) :
  o <> AddPrice ->
  exists js, snd (handler schema plan o r d) = with_statements d js.
Proof.
  intros Ho. destruct o; cbn [handler]; [| contradiction | |].
  - unfold getPricesHandler. destruct (Atoi _) as [n|].
    + unfold bind, db_Query, journal, with_statements; cbn.
      destruct (negb _); destruct (reachable d) eqn:Hr; cbn;
        try match goal with
          | |- context [select_prices ?s ?l ?k ?rows] =>
              destruct (select_prices s l k rows)
          end; cbn; eexists; rewrite <- ?Hr; reflexivity.
    + exists (statements d). destruct d; reflexivity.
  - unfold getLocationsHandler, bind, db_Query, journal, with_statements;
      cbn.
    destruct (reachable d) eqn:Hr; cbn; eexists; rewrite <- ?Hr; reflexivity.
  - unfold getComparisonHandler, bind, db_Query, journal, with_statements;
      cbn.
    destruct (reachable d) eqn:Hr; cbn; eexists; rewrite <- ?Hr; reflexivity.
Qed.

(** X14: the reading operations have no effect a later request can see:
    after a listing, a location listing or a comparison, under any plan,
    every operation answers what it would have answered before. *)
Theorem reads_do_not_change_answers
    (schema : Schema) (plan plan' : Plan) (o o' : Operation)
    (r r' : Request) (d : DB) :
  o <> AddPrice ->
  fst (handler schema plan' o' r' (snd (handler schema plan o r d)))
  = fst (handler schema plan' o' r' d).
Proof.
  intros Ho.
  destruct (reading_handler_journals schema plan o r d Ho) as [js ->].
  apply answer_ignores_journal.
Qed.

Lemma reads_do_not_change_answers_witness :
  fst (handler plain_schema backwards Compare comparison_request
         (snd (handler plain_schema heap_order ListPrices
                 (get "/api/prices" [("limit", "-1")]) seeded)))
  = fst (handler plain_schema backwards Compare comparison_request seeded).
Proof.
  apply (reads_do_not_change_answers plain_schema heap_order backwards
           ListPrices Compare (get "/api/prices" [("limit", "-1")])
           comparison_request seeded).
  discriminate.
Defined.

(** ** Configuration *)

Lemma getEnv_setting (env : Env) (key def : string) :
  def <> "" -> setting env key def (getEnv env key def).
Proof.
  intros Hdef. unfold setting, getEnv.
  destruct (String.eqb_spec (env key) "") as [E|N]; cbn.
  - repeat split; [exact Hdef|contradiction].
  - repeat split; [exact N|contradiction].
Qed.

(** X15: every setting of the service falls back to its default when its
    variable is unset or empty and is the variable's value otherwise, so
    none is ever empty: the connection string always names a host, a
    port, a user, a password and a database, with sslmode=disable, and
    the listen address always has a port.  An empty password cannot be
    configured. *)
Theorem settings_fall_back_to_defaults (env : Env) :
  (exists host port user password name,
     psqlInfo env
     = ("host=" ++ host ++ " port=" ++ port ++ " user=" ++ user
        ++ " password=" ++ password ++ " dbname=" ++ name
        ++ " sslmode=disable")%string /\
     setting env "DB_HOST" "localhost" host /\
     setting env "DB_PORT" "5432" port /\
     setting env "DB_USER" "postgres" user /\
     setting env "DB_PASSWORD" "password" password /\
     setting env "DB_NAME" "egg_tracker" name) /\
  (exists port,
     listen_address env = (":" ++ port)%string /\
     setting env "PORT" "8080" port).
Proof.
  split.
  - exists (getEnv env "DB_HOST" "localhost"), (getEnv env "DB_PORT" "5432"),
      (getEnv env "DB_USER" "postgres"),
      (getEnv env "DB_PASSWORD" "password"),
      (getEnv env "DB_NAME" "egg_tracker").
    split; [reflexivity|].
    repeat split; apply getEnv_setting; discriminate.
  - exists (getEnv env "PORT" "8080").
    split; [reflexivity|]. apply getEnv_setting. discriminate.
Qed.

Example psqlInfo_defaults :
  psqlInfo no_env
  = "host=localhost port=5432 user=postgres password=password dbname=egg_tracker sslmode=disable".
Proof. reflexivity. Qed.

Example psqlInfo_empty_password :
  psqlInfo (fun key => if String.eqb key "DB_HOST" then "db" else "")
  = "host=db port=5432 user=postgres password=password dbname=egg_tracker sslmode=disable".
Proof. reflexivity. Qed.
